(** * The GCE backend of the worker: a shallow embedding of [backend/gce.go]

    The provider turns "run this build script on a clean machine" into a
    life cycle on Google Compute Engine.  Every remote party (the cloud
    control plane, the guest's SSH daemon, the Go libraries) appears here
    as an explicit oracle: a record of answers that the embedded code
    consumes in the order in which the Go code asks for them. *)

From Stdlib Require Import ZArith Ascii String List Lia Sorted.
From stdpp Require Import gmap strings list pretty.

Set Warnings "-clear-no-such-hyp".

Local Open Scope string_scope.
Local Open Scope list_scope.
Local Open Scope Z_scope.

(** ** Errors and fallible results *)

(** One entry of [compute.OperationError.Errors]. *)
Record OperationErrorErrors := {
  Code : string;
  Location : string;
  Message : string
}.

Record OperationError := {
  Errors : list OperationErrorErrors
}.

(** The values of Go's [error] interface that the backend can see. *)
Inductive error :=
| Errorf (msg : string)               (* built with fmt.Errorf in this package *)
| ErrStaleVM                          (* the package sentinel *)
| gceOpError (Err : OperationError)   (* &gceOpError{Err: ...} *)
| ExitError (exitStatus : Z)          (* ssh.ExitError *)
| Canceled                            (* context.Canceled *)
| DeadlineExceeded                    (* context.DeadlineExceeded *)
| LibError (origin msg : string).     (* any other error of a library *)

(** A Go result pair [(v, err)]. *)
Inductive result (A : Type) :=
| Ok (a : A)
| Err (e : error).
Arguments Ok {A} a.
Arguments Err {A} e.

#[global] Instance result_ret : MRet result := fun A a => Ok a.

#[global] Instance result_bind : MBind result := fun A B k r =>
  match r with
  | Ok a => k a
  | Err e => Err e
  end.

Definition is_Err {A} (r : result A) : bool :=
  match r with Err _ => true | Ok _ => false end.

Definition errorEq (e1 e2 : error) : bool :=
  match e1, e2 with
  | ErrStaleVM, ErrStaleVM => true
  | Canceled, Canceled => true
  | DeadlineExceeded, DeadlineExceeded => true
  | _, _ => false
  end.

Fixpoint strings_Join (l : list string) (sep : string) : string :=
  match l with
  | [] => ""
  | [s] => s
  | s :: rest => s +:+ sep +:+ strings_Join rest sep
  end.

(** The [Error] method of [gceOpError]. *)
Definition gceOpError_Error (oe : OperationError) : string :=
  let errStrs :=
    foldl (fun errStrs err =>
             errStrs ++ ["code=" +:+ Code err +:+ " location=" +:+ Location err
                         +:+ " message=" +:+ Message err])
          [] (Errors oe) in
  strings_Join errStrs ", ".

(** ** The configuration store *)

Module config.

(** Modelled from the spec: the [config] package is not part of the
    sources at hand.  A provider configuration is a mapping from option
    name to string with a presence test, a read that yields the empty
    string for an absent option, and set/unset. *)
Abbreviation ProviderConfig := (gmap string string).

Definition IsSet (pc : ProviderConfig) (key : string) : bool :=
  bool_decide (is_Some (pc !! key)).

Definition Get (pc : ProviderConfig) (key : string) : string :=
  default "" (pc !! key).

Definition Set_ (pc : ProviderConfig) (key value : string) : ProviderConfig :=
  <[key := value]> pc.

Definition Unset (pc : ProviderConfig) (key : string) : ProviderConfig :=
  delete key pc.

End config.
Import config.

(** ** Byte-wise order on strings, and [sort.Strings] *)

(** Go compares strings byte by byte. *)
Fixpoint string_le (s t : string) : bool :=
  match s, t with
  | EmptyString, _ => true
  | String _ _, EmptyString => false
  | String a s', String b t' =>
      if (N_of_ascii a <? N_of_ascii b)%N then true
      else if (N_of_ascii a =? N_of_ascii b)%N then string_le s' t'
      else false
  end.

Fixpoint insertSorted (s : string) (l : list string) : list string :=
  match l with
  | [] => [s]
  | t :: rest => if string_le s t then s :: l else t :: insertSorted s rest
  end.

(** [sort.Strings]: the names in increasing order. *)
Definition sort_Strings (l : list string) : list string :=
  foldr insertSorted [] l.

(** ** Cloud objects *)

Record Image := {
  Name : string;
  SelfLink : string
}.

#[global] Instance Image_inhabited : Inhabited Image :=
  populate {| Name := ""; SelfLink := "" |}.

(** [StartAttributes], the part the resolver reads. *)
Record StartAttributes := {
  Language : string;
  OsxImage : string;
  Dist : string;
  Group : string;
  OS : string
}.

(** [image.Params] *)
Record Params := {
  pInfra : string;
  pLanguage : string;
  pOsxImage : string;
  pDist : string;
  pGroup : string;
  pOS : string
}.

(** The [image.Selector] interface. *)
Record Selector := {
  Select : Params -> result string
}.

Record Zone := { zoneName : string }.
Record MachineType := { mtSelfLink : string }.
Record Network := { nwSelfLink : string }.

(** ** Provider state *)

Record gceAccountJSON := {
  ClientEmail : string;
  PrivateKey : string
}.

(** The token-refreshing HTTP client built from the [jwt.Config]; the
    transport is the process-wide override when one is installed. *)
Record HttpClient := {
  jwtEmail : string;
  jwtPrivateKey : string;
  jwtScopes : list string;
  jwtTokenURL : string;
  Transport : option string
}.

(** [compute.Service] *)
Record Service := {
  svcClient : HttpClient
}.

Record Signer := { signerKey : string }.

Record gceInstanceConfig := {
  icMachineType : option MachineType;
  icZone : option Zone;
  icNetwork : option Network;
  DiskType : string;
  DiskSize : Z;
  SSHKeySigner : Signer;
  SSHPubKey : string;
  AutoImplode : bool;
  HardTimeoutMinutes : Z
}.

Record gceProvider := {
  client : Service;
  projectID : string;
  ic : gceInstanceConfig;
  cfg : ProviderConfig;
  imageSelectorType : string;
  imageSelector : option Selector;
  instanceGroup : string;
  bootPollSleep : Z;
  defaultLanguage : string;
  defaultImage : string;
  uploadRetries : Z;
  uploadRetrySleep : Z
}.

(** ** Constants *)

Definition second : Z := 1000000000.

Definition defaultGCEZone := "us-central1-a".
Definition defaultGCEMachineType := "n1-standard-2".
Definition defaultGCENetwork := "default".
Definition defaultGCEDiskSize : Z := 20.
Definition defaultGCELanguage := "minimal".
Definition defaultGCEBootPollSleep : Z := 3 * second.
Definition defaultGCEUploadRetries : Z := 10.
Definition defaultGCEUploadRetrySleep : Z := 5 * second.
Definition defaultGCEHardTimeoutMinutes : Z := 130.
Definition defaultGCEImageSelectorType := "legacy".
Definition defaultGCEImage := "travis-ci-mega.+".

(** [fmt.Sprintf(gceImageTravisCIPrefixFilter, language)] *)
Definition gceImageTravisCIPrefixFilter (language : string) : string :=
  "name eq ^travis-ci-" +:+ language +:+ ".+".

Definition errGCEMissingIPAddressError : error := Errorf "no IP address found".

Definition DevstorageFullControlScope :=
  "https://www.googleapis.com/auth/devstorage.full_control".
Definition ComputeScope := "https://www.googleapis.com/auth/compute".

(** ** The Go libraries the constructor calls

    None of these belongs to the repository; each is an oracle.  Durations
    are [time.Duration] values, that is nanoseconds. *)
Record GoLib := {
  ioutil_ReadFile : string -> result string;
  json_Unmarshal : string -> result gceAccountJSON;
  strings_TrimSpace : string -> string;
  strings_ToUpper : string -> string;
  strconv_Quote : string -> string;
  gceCustomHTTPTransport : option string;
  compute_New : HttpClient -> result Service;
  pem_Decode : string -> option string;
  x509_DecryptPEMBlock : string -> string -> result string;
  x509_ParsePKCS1PrivateKey : string -> result string;
  ssh_NewSignerFromKey : string -> result Signer;
  strconv_ParseInt : string -> result Z;
  strconv_ParseUint : string -> result Z;
  strconv_ParseBool : string -> result bool;
  time_ParseDuration : string -> result Z;
  url_Parse : string -> result string;
  image_NewEnvSelector : ProviderConfig -> result Selector;
  image_NewAPISelector : string -> Selector
}.

(** [strings.HasPrefix] *)
Fixpoint strings_HasPrefix (s pre : string) : bool :=
  match pre, s with
  | EmptyString, _ => true
  | String _ _, EmptyString => false
  | String a pre', String b s' => Ascii.eqb a b && strings_HasPrefix s' pre'
  end.

(** What the constructor has in hand once the credentials and the SSH key
    pair are loaded. *)
Record keyMaterial := {
  kmClient : Service;
  kmProjectID : string;
  kmSigner : Signer;
  kmPubKey : string
}.

Section Construction.

Context (L : GoLib).

Definition loadGoogleAccountJSON (filenameOrJSON : string) : result gceAccountJSON :=
  bytes ← (if strings_HasPrefix (strings_TrimSpace L filenameOrJSON) "{"
           then Ok filenameOrJSON
           else ioutil_ReadFile L filenameOrJSON);
  json_Unmarshal L bytes.

Definition buildGoogleComputeService (cfg : ProviderConfig) : result Service :=
  if negb (IsSet cfg "ACCOUNT_JSON") then Err (Errorf "missing ACCOUNT_JSON")
  else
    a ← loadGoogleAccountJSON (Get cfg "ACCOUNT_JSON");
    let client := {| jwtEmail := ClientEmail a;
                     jwtPrivateKey := PrivateKey a;
                     jwtScopes := [DevstorageFullControlScope; ComputeScope];
                     jwtTokenURL := "https://accounts.google.com/o/oauth2/token";
                     Transport := gceCustomHTTPTransport L |} in
    compute_New L client.

Definition invalidSelectorType (selectorType : string) : error :=
  Errorf ("invalid image selector type " +:+ strconv_Quote L selectorType).

Definition buildGCEImageSelector (selectorType : string) (cfg : ProviderConfig)
  : result Selector :=
  if String.eqb selectorType "env" then image_NewEnvSelector L cfg
  else if String.eqb selectorType "api" then
    baseURL ← url_Parse L (Get cfg "IMAGE_SELECTOR_URL");
    Ok (image_NewAPISelector L baseURL)
  else Err (invalidSelectorType selectorType).

(** [newGCEProvider], from the client to the SSH signer. *)
Definition newGCEProvider_keys (cfg : ProviderConfig) : result keyMaterial :=
  client ← buildGoogleComputeService cfg;
  if negb (IsSet cfg "PROJECT_ID") then Err (Errorf "missing PROJECT_ID") else
  let projectID := Get cfg "PROJECT_ID" in
  if negb (IsSet cfg "SSH_KEY_PATH") then Err (Errorf "missing SSH_KEY_PATH config key") else
  sshKeyBytes ← ioutil_ReadFile L (Get cfg "SSH_KEY_PATH");
  if negb (IsSet cfg "SSH_PUB_KEY_PATH") then Err (Errorf "missing SSH_PUB_KEY_PATH config key") else
  sshPubKeyBytes ← ioutil_ReadFile L (Get cfg "SSH_PUB_KEY_PATH");
  match pem_Decode L sshKeyBytes with
  | None => Err (Errorf "ssh key does not contain a valid PEM block")
  | Some block =>
    if negb (IsSet cfg "SSH_KEY_PASSPHRASE") then Err (Errorf "missing SSH_KEY_PASSPHRASE config key") else
    der ← x509_DecryptPEMBlock L block (Get cfg "SSH_KEY_PASSPHRASE");
    parsedKey ← x509_ParsePKCS1PrivateKey L der;
    sshKeySigner ← ssh_NewSignerFromKey L parsedKey;
    Ok {| kmClient := client; kmProjectID := projectID;
          kmSigner := sshKeySigner; kmPubKey := sshPubKeyBytes |}
  end.

(** [newGCEProvider], the three options written back onto the mapping. *)
Definition newGCEProvider_writeBack (cfg : ProviderConfig) : ProviderConfig :=
  let zoneName := if IsSet cfg "ZONE" then Get cfg "ZONE" else defaultGCEZone in
  let cfg := Set_ cfg "ZONE" zoneName in
  let mtName := if IsSet cfg "MACHINE_TYPE" then Get cfg "MACHINE_TYPE"
                else defaultGCEMachineType in
  let cfg := Set_ cfg "MACHINE_TYPE" mtName in
  let nwName := if IsSet cfg "NETWORK" then Get cfg "NETWORK" else defaultGCENetwork in
  Set_ cfg "NETWORK" nwName.

(** [newGCEProvider], from [DISK_SIZE] to the returned provider. *)
Definition newGCEProvider_options (cfg : ProviderConfig) (km : keyMaterial)
  : result gceProvider :=
  let diskSize :=
    if IsSet cfg "DISK_SIZE" then
      match strconv_ParseInt L (Get cfg "DISK_SIZE") with
      | Ok ds => ds
      | Err _ => defaultGCEDiskSize
      end
    else defaultGCEDiskSize in
  bootPollSleep ← (if IsSet cfg "BOOT_POLL_SLEEP"
                   then time_ParseDuration L (Get cfg "BOOT_POLL_SLEEP")
                   else Ok defaultGCEBootPollSleep);
  uploadRetries ← (if IsSet cfg "UPLOAD_RETRIES"
                   then strconv_ParseUint L (Get cfg "UPLOAD_RETRIES")
                   else Ok defaultGCEUploadRetries);
  uploadRetrySleep ← (if IsSet cfg "UPLOAD_RETRY_SLEEP"
                      then time_ParseDuration L (Get cfg "UPLOAD_RETRY_SLEEP")
                      else Ok defaultGCEUploadRetrySleep);
  let defaultLanguage := if IsSet cfg "DEFAULT_LANGUAGE" then Get cfg "DEFAULT_LANGUAGE"
                         else defaultGCELanguage in
  let defaultImage := if IsSet cfg "IMAGE_DEFAULT" then Get cfg "IMAGE_DEFAULT"
                      else defaultGCEImage in
  autoImplode ← (if IsSet cfg "AUTO_IMPLODE"
                 then strconv_ParseBool L (Get cfg "AUTO_IMPLODE")
                 else Ok true);
  hardTimeoutMinutes ← (if IsSet cfg "HARD_TIMEOUT_MINUTES"
                        then strconv_ParseInt L (Get cfg "HARD_TIMEOUT_MINUTES")
                        else Ok defaultGCEHardTimeoutMinutes);
  let imageSelectorType := if IsSet cfg "IMAGE_SELECTOR_TYPE"
                           then Get cfg "IMAGE_SELECTOR_TYPE"
                           else defaultGCEImageSelectorType in
  if negb (String.eqb imageSelectorType "legacy")
     && negb (String.eqb imageSelectorType "env")
     && negb (String.eqb imageSelectorType "api")
  then Err (invalidSelectorType imageSelectorType) else
  imageSelector ← (if String.eqb imageSelectorType "env"
                      || String.eqb imageSelectorType "api"
                   then sel ← buildGCEImageSelector imageSelectorType cfg; Ok (Some sel)
                   else Ok None);
  Ok {| client := kmClient km;
        projectID := kmProjectID km;
        cfg := cfg;
        ic := {| icMachineType := None; icZone := None; icNetwork := None;
                 DiskType := "";
                 DiskSize := diskSize;
                 SSHKeySigner := kmSigner km;
                 SSHPubKey := kmPubKey km;
                 AutoImplode := autoImplode;
                 HardTimeoutMinutes := hardTimeoutMinutes |};
        imageSelector := imageSelector;
        imageSelectorType := imageSelectorType;
        instanceGroup := Get cfg "INSTANCE_GROUP";
        bootPollSleep := bootPollSleep;
        defaultLanguage := defaultLanguage;
        defaultImage := defaultImage;
        uploadRetries := uploadRetries;
        uploadRetrySleep := uploadRetrySleep |}.

(** [newGCEProvider].  The configuration is passed by pointer: the first
    component is the mapping as the call leaves it. *)
Definition newGCEProvider (cfg : ProviderConfig) : ProviderConfig * result gceProvider :=
  match newGCEProvider_keys cfg with
  | Err e => (cfg, Err e)
  | Ok km =>
    let cfg := newGCEProvider_writeBack cfg in
    (cfg, newGCEProvider_options cfg km)
  end.

End Construction.

(** ** The cloud control plane: lookups *)

Record Cloud := {
  Zones_Get : string -> string -> result Zone;
  MachineTypes_Get : string -> string -> string -> result MachineType;
  Networks_Get : string -> string -> result Network;
  Images_List : string -> string -> result (list Image)
}.

Definition with_Zone (c : gceInstanceConfig) (z : option Zone) : gceInstanceConfig :=
  {| icMachineType := icMachineType c; icZone := z; icNetwork := icNetwork c;
     DiskType := DiskType c; DiskSize := DiskSize c; SSHKeySigner := SSHKeySigner c;
     SSHPubKey := SSHPubKey c; AutoImplode := AutoImplode c;
     HardTimeoutMinutes := HardTimeoutMinutes c |}.

Definition with_DiskType (c : gceInstanceConfig) (d : string) : gceInstanceConfig :=
  {| icMachineType := icMachineType c; icZone := icZone c; icNetwork := icNetwork c;
     DiskType := d; DiskSize := DiskSize c; SSHKeySigner := SSHKeySigner c;
     SSHPubKey := SSHPubKey c; AutoImplode := AutoImplode c;
     HardTimeoutMinutes := HardTimeoutMinutes c |}.

Definition with_MachineType (c : gceInstanceConfig) (m : option MachineType)
  : gceInstanceConfig :=
  {| icMachineType := m; icZone := icZone c; icNetwork := icNetwork c;
     DiskType := DiskType c; DiskSize := DiskSize c; SSHKeySigner := SSHKeySigner c;
     SSHPubKey := SSHPubKey c; AutoImplode := AutoImplode c;
     HardTimeoutMinutes := HardTimeoutMinutes c |}.

Definition with_Network (c : gceInstanceConfig) (n : option Network) : gceInstanceConfig :=
  {| icMachineType := icMachineType c; icZone := icZone c; icNetwork := n;
     DiskType := DiskType c; DiskSize := DiskSize c; SSHKeySigner := SSHKeySigner c;
     SSHPubKey := SSHPubKey c; AutoImplode := AutoImplode c;
     HardTimeoutMinutes := HardTimeoutMinutes c |}.

Definition set_ic (p : gceProvider) (c : gceInstanceConfig) : gceProvider :=
  {| client := client p; projectID := projectID p; ic := c; cfg := cfg p;
     imageSelectorType := imageSelectorType p; imageSelector := imageSelector p;
     instanceGroup := instanceGroup p; bootPollSleep := bootPollSleep p;
     defaultLanguage := defaultLanguage p; defaultImage := defaultImage p;
     uploadRetries := uploadRetries p; uploadRetrySleep := uploadRetrySleep p |}.

Definition set_cfg (p : gceProvider) (c : ProviderConfig) : gceProvider :=
  {| client := client p; projectID := projectID p; ic := ic p; cfg := c;
     imageSelectorType := imageSelectorType p; imageSelector := imageSelector p;
     instanceGroup := instanceGroup p; bootPollSleep := bootPollSleep p;
     defaultLanguage := defaultLanguage p; defaultImage := defaultImage p;
     uploadRetries := uploadRetries p; uploadRetrySleep := uploadRetrySleep p |}.

(** The Go pair [(image, err)] of the image resolvers, both possibly nil. *)
Definition imagePair : Type := option Image * option error.

Definition pairOf (r : result Image) : imagePair :=
  match r with
  | Ok image => (Some image, None)
  | Err e => (None, Some e)
  end.

Section Resolver.

Context (L : GoLib) (W : Cloud).

(** [gceProvider.Setup].  The provider is updated in place, one field
    after the other: the first component is the provider as the call
    leaves it, also when a lookup fails (the pointer a failed lookup
    returns is nil). *)
Definition Setup (p : gceProvider) : gceProvider * option error :=
  match Zones_Get W (projectID p) (Get (cfg p) "ZONE") with
  | Err err => (set_ic p (with_Zone (ic p) None), Some err)
  | Ok zone =>
      let p := set_ic p (with_Zone (ic p) (Some zone)) in
      let p := set_ic p (with_DiskType (ic p)
                           ("zones/" +:+ zoneName zone +:+ "/diskTypes/pd-ssd")) in
      match MachineTypes_Get W (projectID p) (zoneName zone)
                             (Get (cfg p) "MACHINE_TYPE") with
      | Err err => (set_ic p (with_MachineType (ic p) None), Some err)
      | Ok mt =>
          let p := set_ic p (with_MachineType (ic p) (Some mt)) in
          match Networks_Get W (projectID p) (Get (cfg p) "NETWORK") with
          | Err err => (set_ic p (with_Network (ic p) None), Some err)
          | Ok nw => (set_ic p (with_Network (ic p) (Some nw)), None)
          end
      end
  end.

(** [gceProvider.imageByFilter] *)
Definition imageByFilter (p : gceProvider) (filter : string) : result Image :=
  images ← Images_List W (projectID p) filter;
  if (length images =? 0)%nat
  then Err (Errorf ("no image found with filter " +:+ filter))
  else
    let '(imagesByName, imageNames) :=
      foldl (fun '(imagesByName, imageNames) image =>
               (<[Name image := image]> imagesByName, imageNames ++ [Name image]))
            ((∅ : gmap string Image), []) images in
    let imageNames := sort_Strings imageNames in
    Ok (imagesByName !!! (imageNames !!! (length imageNames - 1)%nat)).

(** [gceProvider.imageForLanguage] *)
Definition imageForLanguage (p : gceProvider) (language : string) : result Image :=
  imageByFilter p (gceImageTravisCIPrefixFilter language).

(** A candidate language yields when the cloud lists at least one image
    for its filter. *)
Definition yields (p : gceProvider) (language : string) : bool :=
  match Images_List W (projectID p) (gceImageTravisCIPrefixFilter language) with
  | Ok (_ :: _) => true
  | _ => false
  end.

(** [gceProvider.legacyImageSelect], the candidate list it builds. *)
Definition candidateLangs (p : gceProvider) (startAttributes : StartAttributes)
  : list string :=
  let mappedLang := "LANGUAGE_MAP_" +:+ strings_ToUpper L (Language startAttributes) in
  let candidateLangs :=
    if IsSet (cfg p) mappedLang
    then [] ++ [Get (cfg p) mappedLang]
    else [] ++ [Language startAttributes] in
  candidateLangs ++ [defaultLanguage p].

(** The [for ... range candidateLangs] loop with its [break]; the
    accumulator holds the variables [image] and [err]. *)
Fixpoint rangeCandidates (p : gceProvider) (langs : list string) (acc : imagePair)
  : imagePair :=
  match langs with
  | [] => acc
  | language :: rest =>
      match imageForLanguage p language with
      | Ok image => (Some image, None)
      | Err e => rangeCandidates p rest (None, Some e)
      end
  end.

(** [gceProvider.legacyImageSelect] *)
Definition legacyImageSelect (p : gceProvider) (startAttributes : StartAttributes)
  : imagePair :=
  rangeCandidates p (candidateLangs p startAttributes) (None, None).

(** [gceProvider.imageSelect]; the selector is set whenever the selector
    type is [env] or [api]. *)
Definition imageSelect (p : gceProvider) (sel : Selector)
           (startAttributes : StartAttributes) : imagePair :=
  match Select sel {| pInfra := "gce";
                      pLanguage := Language startAttributes;
                      pOsxImage := OsxImage startAttributes;
                      pDist := Dist startAttributes;
                      pGroup := Group startAttributes;
                      pOS := OS startAttributes |} with
  | Err e => (None, Some e)
  | Ok imageName =>
      let imageName := if String.eqb imageName "default" then defaultImage p
                       else imageName in
      pairOf (imageByFilter p ("name eq ^" +:+ imageName))
  end.

End Resolver.

(** ** Instances *)

Record AccessConfig := {
  acName : string;
  acType : string;
  NatIP : string
}.

Record NetworkInterface := {
  AccessConfigs : list AccessConfig;
  niNetwork : string
}.

Record AttachedDisk := {
  adType : string;
  adMode : string;
  adBoot : bool;
  adAutoDelete : bool;
  adSourceImage : string;
  adDiskType : string;
  adDiskSizeGb : Z
}.

Record ServiceAccount := {
  saEmail : string;
  saScopes : list string
}.

(** [compute.Instance] *)
Record Instance := {
  Description : string;
  Disks : list AttachedDisk;
  Preemptible : bool;
  instMachineType : string;
  instName : string;
  Metadata : list (string * string);
  NetworkInterfaces : list NetworkInterface;
  ServiceAccounts : list ServiceAccount;
  Tags : list string;
  instSelfLink : string
}.

(** [compute.Operation], the fields the pollers read. *)
Record Operation := {
  opName : string;
  Status : string;
  opError : option OperationError
}.

Record gceInstance := {
  iClient : Service;
  provider : gceProvider;
  instance : Instance;
  iIC : gceInstanceConfig;
  authUser : string;
  iProjectID : string;
  imageName : string
}.

Definition set_instance (i : gceInstance) (inst : Instance) : gceInstance :=
  {| iClient := iClient i; provider := provider i; instance := inst; iIC := iIC i;
     authUser := authUser i; iProjectID := iProjectID i; imageName := imageName i |}.

(** How a call ends: it returns, it never returns (every goroutine it
    waits for is stuck and the context is never done), or it dereferences
    a nil pointer. *)
Inductive termination (A : Type) :=
| Returns (a : A)
| Blocks
| Panics.
Arguments Returns {A} a.
Arguments Blocks {A}.
Arguments Panics {A}.

(** What the calling goroutine does to the outside world, in order. *)
Inductive effect :=
| CallInsert (name : string)
| CallInstancesGet (name : string)
| CallAddInstances (group selfLink : string)
| CallDelete (name : string)
| MetricsMark (name : string)
| MetricsTimeSince (name : string)
| Sleep (d : Z).

(** [gceStartupScript.Execute(&scriptBuf, p.ic)] *)
Definition gceStartupScript (c : gceInstanceConfig) : string :=
  "#!/usr/bin/env bash
" +:+ (if AutoImplode c
       then "echo poweroff | at now + " +:+ pretty (HardTimeoutMinutes c) +:+ " minutes"
       else "") +:+ "
cat > ~travis/.ssh/authorized_keys <<EOF
" +:+ SSHPubKey c +:+ "
EOF
".

(** [gceProvider.buildInstance]; [mt] and [nw] are [p.ic.MachineType] and
    [p.ic.Network], [uuid] is the value of [uuid.NewRandom()]. *)
Definition buildInstance (p : gceProvider) (mt : MachineType) (nw : Network)
           (startAttributes : StartAttributes) (imageLink startupScript uuid : string)
  : Instance :=
  {| Description := "Travis CI " +:+ Language startAttributes +:+ " test VM";
     Disks := [ {| adType := "PERSISTENT"; adMode := "READ_WRITE";
                   adBoot := true; adAutoDelete := true;
                   adSourceImage := imageLink;
                   adDiskType := DiskType (ic p);
                   adDiskSizeGb := DiskSize (ic p) |} ];
     Preemptible := true;
     instMachineType := mtSelfLink mt;
     instName := "testing-gce-" +:+ uuid;
     Metadata := [("startup-script", startupScript)];
     NetworkInterfaces :=
       [ {| AccessConfigs := [ {| acName := "AccessConfig brought to you by travis-worker";
                                  acType := "ONE_TO_ONE_NAT"; NatIP := "" |} ];
            niNetwork := nwSelfLink nw |} ];
     ServiceAccounts :=
       [ {| saEmail := "default";
            saScopes := ["https://www.googleapis.com/auth/userinfo.email";
                         DevstorageFullControlScope; ComputeScope] |} ];
     Tags := ["testing"];
     instSelfLink := "" |}.

(** ** Polling a zone operation *)

(** What a polling goroutine ends with: a value for the error channel, a
    value for the instance channel, or nothing because every answer so far
    told it to keep polling. *)
Inductive pollerEnd :=
| SendErr (e : error)
| SendDone
| StillPolling.

(** The polling goroutine of [Start] (the insert operation and the
    group-add operation are polled by the same loop).  [answers] are the
    successive results of [ZoneOperations.Get]; the second component counts
    the sleeps. *)
Fixpoint startPoller (answers : list (result Operation)) : pollerEnd * nat :=
  match answers with
  | [] => (StillPolling, 0%nat)
  | Err err :: _ => (SendErr err, 0%nat)
  | Ok newOp :: rest =>
      if String.eqb (Status newOp) "DONE" then
        match opError newOp with
        | Some oe => (SendErr (gceOpError oe), 0%nat)
        | None => (SendDone, 0%nat)
        end
      else
        match opError newOp with
        | Some oe => (SendErr (gceOpError oe), 0%nat)
        | None => let '(e, n) := startPoller rest in (e, S n)
        end
  end.

(** The polling goroutine of [Stop]. *)
Fixpoint stopPoller (answers : list (result Operation)) : pollerEnd * nat :=
  match answers with
  | [] => (StillPolling, 0%nat)
  | Err err :: _ => (SendErr err, 0%nat)
  | Ok newOp :: rest =>
      if String.eqb (Status newOp) "DONE" then
        match opError newOp with
        | Some oe => (SendErr (gceOpError oe), 0%nat)
        | None => (SendDone, 0%nat)
        end
      else let '(e, n) := stopPoller rest in (e, S n)
  end.

(** ** Start *)

(** What the outside world answers during one call of [Start].  The two
    context fields resolve the races of the two [select] statements: they
    hold [ctx.Err()] when the [<-ctx.Done()] case is the one taken. *)
Record StartWorld := {
  uuid_NewRandom : string;
  Instances_Insert : Instance -> result Operation;
  insertAnswers : list (result Operation);
  ctxWhileWaiting : option error;
  Instances_Get : string -> result Instance;
  InstanceGroups_AddInstances : string -> string -> result Operation;
  addAnswers : list (result Operation);
  ctxWhileSelecting : option error
}.

(** The state of [Start] when it leaves its body, before the deferred
    function runs: the return values, the flag, and the variable [inst]
    (nil after a failed [Instances.Get]). *)
Record startExit := {
  exitResult : termination (result gceInstance);
  abandonedStart : bool;
  exitInst : option Instance;
  exitEffects : list effect
}.

Definition bootTimeout (ctxErr : error) : list effect :=
  if errorEq ctxErr DeadlineExceeded
  then [MetricsMark "worker.vm.provider.gce.boot.timeout"]
  else [].

Section Lifecycle.

Context (L : GoLib) (W : Cloud).

(** [gceProvider.getImage] *)
Definition getImage (p : gceProvider) (startAttributes : StartAttributes)
  : termination imagePair :=
  if String.eqb (imageSelectorType p) "env" || String.eqb (imageSelectorType p) "api"
  then match imageSelector p with
       | Some sel => Returns (imageSelect W p sel startAttributes)
       | None => Panics
       end
  else Returns (legacyImageSelect L W p startAttributes).

(** The final [select] of [Start] over [instChan], [errChan] and
    [ctx.Done()]; [poller] is what the goroutine feeding the two
    channels ends with. *)
Definition startSelect (p : gceProvider) (image : Image) (inst : Instance)
           (poller : pollerEnd) (ctx : option error) : startExit :=
  match ctx with
  | Some ctxErr =>
      {| exitResult := Returns (Err ctxErr); abandonedStart := true;
         exitInst := Some inst; exitEffects := bootTimeout ctxErr |}
  | None =>
      match poller with
      | SendDone =>
          {| exitResult := Returns (Ok {| iClient := client p; provider := p;
                                          instance := inst; iIC := ic p;
                                          authUser := "travis";
                                          iProjectID := projectID p;
                                          imageName := Name image |});
             abandonedStart := false; exitInst := Some inst;
             exitEffects := [MetricsTimeSince "worker.vm.provider.gce.boot"] |}
      | SendErr err =>
          {| exitResult := Returns (Err err); abandonedStart := true;
             exitInst := Some inst; exitEffects := [] |}
      | StillPolling =>
          {| exitResult := Blocks; abandonedStart := false;
             exitInst := Some inst; exitEffects := [] |}
      end
  end.

Definition prependEffects (es : list effect) (x : startExit) : startExit :=
  {| exitResult := exitResult x; abandonedStart := abandonedStart x;
     exitInst := exitInst x; exitEffects := es ++ exitEffects x |}.

(** [Start] from [abandonedStart := false] to its last [select]. *)
Definition startBody (p : gceProvider) (w : StartWorld) (image : Image)
           (inst : Instance) : startExit :=
  let insertPoller := fst (startPoller (insertAnswers w)) in
  if String.eqb (instanceGroup p) ""
  then startSelect p image inst insertPoller (ctxWhileSelecting w)
  else
    (* the loop over origInstanceReady, ctx.Done() and default *)
    match ctxWhileWaiting w with
    | Some ctxErr =>
        {| exitResult := Returns (Err ctxErr); abandonedStart := true;
           exitInst := Some inst; exitEffects := bootTimeout ctxErr |}
    | None =>
        match insertPoller with
        | SendDone =>
            match Instances_Get w (instName inst) with
            | Err err =>
                {| exitResult := Returns (Err err); abandonedStart := false;
                   exitInst := None;
                   exitEffects := [CallInstancesGet (instName inst)] |}
            | Ok inst' =>
                match InstanceGroups_AddInstances w (instanceGroup p)
                                                  (instSelfLink inst') with
                | Err err =>
                    {| exitResult := Returns (Err err); abandonedStart := true;
                       exitInst := Some inst';
                       exitEffects :=
                         [CallInstancesGet (instName inst);
                          CallAddInstances (instanceGroup p) (instSelfLink inst')] |}
                | Ok op =>
                    prependEffects
                      [CallInstancesGet (instName inst);
                       CallAddInstances (instanceGroup p) (instSelfLink inst')]
                      (startSelect p image inst' (fst (startPoller (addAnswers w)))
                                   (ctxWhileSelecting w))
                end
            end
        | _ =>
            (* nothing ever arrives on origInstanceReady: the loop sleeps
               and spins until the context is done, which it never is *)
            {| exitResult := Blocks; abandonedStart := false;
               exitInst := Some inst; exitEffects := [] |}
        end
    end.

(** The deferred function of [Start]. *)
Definition startDeferred (x : startExit)
  : termination (result gceInstance) * list effect :=
  match exitResult x with
  | Returns r =>
      if abandonedStart x then
        match exitInst x with
        | Some inst => (Returns r, exitEffects x ++ [CallDelete (instName inst)])
        | None => (Panics, exitEffects x)
        end
      else (Returns r, exitEffects x)
  | other => (other, exitEffects x)
  end.

(** [gceProvider.Start] *)
Definition Start (p : gceProvider) (w : StartWorld) (startAttributes : StartAttributes)
  : termination (result gceInstance) * list effect :=
  match getImage p startAttributes with
  | Blocks => (Blocks, [])
  | Panics => (Panics, [])
  | Returns (_, Some err) => (Returns (Err err), [])
  | Returns (None, None) => (Panics, [])
  | Returns (Some image, None) =>
      match icMachineType (ic p), icNetwork (ic p), icZone (ic p) with
      | Some mt, Some nw, Some zone =>
          let scriptBuf := gceStartupScript (ic p) in
          let inst := buildInstance p mt nw startAttributes (SelfLink image)
                                    scriptBuf (uuid_NewRandom w) in
          match Instances_Insert w inst with
          | Err err => (Returns (Err err), [CallInsert (instName inst)])
          | Ok op =>
              let '(r, es) := startDeferred (startBody p w image inst) in
              (r, CallInsert (instName inst) :: es)
          end
      | _, _, _ => (Panics, [])
      end
  end.

End Lifecycle.

(** ** The SSH and SFTP channel *)

(** The guest's file system, path to contents. *)
Abbreviation RemoteFS := (gmap string string).

(** What the outside world answers during one upload attempt.  [aLstat]
    is a failure of the [Lstat] request itself (the reply never comes);
    without one the request fails exactly when the file is absent.  A
    failed write leaves the first [n] bytes in the file. *)
Record AttemptWorld := {
  aRefresh : result Instance;
  aDial : string -> option error;
  aNewClient : option error;
  aLstat : option error;
  aCreate : option error;
  aWrite : option (nat * error)
}.

(** [gceInstance.getIP] *)
Definition getIP (i : gceInstance) : string :=
  let fix overConfigs (acs : list AccessConfig) : option string :=
    match acs with
    | [] => None
    | ac :: rest => if negb (String.eqb (NatIP ac) "") then Some (NatIP ac)
                    else overConfigs rest
    end in
  let fix overInterfaces (nis : list NetworkInterface) : string :=
    match nis with
    | [] => ""
    | ni :: rest =>
        match overConfigs (AccessConfigs ni) with
        | Some ip => ip
        | None => overInterfaces rest
        end
    end in
  overInterfaces (NetworkInterfaces (instance i)).

(** [gceInstance.refreshInstance]; the instance with its record replaced,
    and the error. *)
Definition refreshInstance (i : gceInstance) (answer : result Instance)
  : gceInstance * option error :=
  match answer with
  | Err err => (i, Some err)
  | Ok inst => (set_instance i inst, None)
  end.

(** [gceInstance.sshClient] *)
Definition sshClient (i : gceInstance) (refresh : result Instance)
           (dial : string -> option error) : gceInstance * option error :=
  match refreshInstance i refresh with
  | (i, Some err) => (i, Some err)
  | (i, None) =>
      let ipAddr := getIP i in
      if String.eqb ipAddr "" then (i, Some errGCEMissingIPAddressError)
      else (i, dial (ipAddr +:+ ":22"))
  end.

Definition substring_prefix (n : nat) (s : string) : string := String.substring 0 n s.

(** [gceInstance.uploadScriptAttempt]: the instance, the guest's file
    system after the attempt, and the attempt's error. *)
Definition uploadScriptAttempt (i : gceInstance) (a : AttemptWorld) (fs : RemoteFS)
           (script : string) : gceInstance * RemoteFS * option error :=
  match sshClient i (aRefresh a) (aDial a) with
  | (i, Some err) => (i, fs, Some err)
  | (i, None) =>
      match aNewClient a with
      | Some err => (i, fs, Some err)
      | None =>
          let lstatErr :=
            match aLstat a with
            | Some err => Some err
            | None => match fs !! "build.sh" with
                      | Some _ => None
                      | None => Some (LibError "sftp" "file does not exist")
                      end
            end in
          match lstatErr with
          | None => (i, fs, Some ErrStaleVM)
          | Some _ =>
              match aCreate a with
              | Some err => (i, fs, Some err)
              | None =>
                  let fs := <["build.sh" := ""]> fs in
                  match aWrite a with
                  | Some (n, err) =>
                      (i, <["build.sh" := substring_prefix n script]> fs, Some err)
                  | None => (i, <["build.sh" := script]> fs, None)
                  end
              end
          end
      end
  end.

(** One iteration of the uploader: the value of [ctx.Err()] at the top of
    the loop, and the world of the attempt that follows. *)
Record UploadIteration := {
  ctxErr : option error;
  attemptWorld : AttemptWorld
}.

Record uploadRun := {
  uploadResult : termination (option error);
  attempts : list (option error);
  sleeps : list Z;
  finalFS : RemoteFS
}.

Definition uint64_max : Z := 2 ^ 64 - 1.

(** [errCount++] on a [uint64] *)
Definition uint64_incr (n : Z) : Z := (n + 1) mod 2 ^ 64.

(** The uploader goroutine of [UploadScript] together with the [select]
    that waits for it.  The context is sampled where the goroutine samples
    it; when the goroutine sees it done it leaves without sending and the
    [select] returns [ctx.Err()].  When the iterations run out the
    goroutine is still at work. *)
Fixpoint uploader (i : gceInstance) (script : string) (errCount : Z)
         (its : list UploadIteration) (fs : RemoteFS) : uploadRun :=
  match its with
  | [] => {| uploadResult := Blocks; attempts := []; sleeps := []; finalFS := fs |}
  | it :: rest =>
      match ctxErr it with
      | Some e =>
          {| uploadResult := Returns (Some e); attempts := []; sleeps := [];
             finalFS := fs |}
      | None =>
          match uploadScriptAttempt i (attemptWorld it) fs script with
          | (i, fs, None) =>
              {| uploadResult := Returns None; attempts := [None]; sleeps := [];
                 finalFS := fs |}
          | (i, fs, Some err) =>
              let errCount := uint64_incr errCount in
              if errCount >? uploadRetries (provider i) then
                {| uploadResult := Returns (Some err); attempts := [Some err];
                   sleeps := []; finalFS := fs |}
              else
                let run := uploader i script errCount rest fs in
                {| uploadResult := uploadResult run;
                   attempts := Some err :: attempts run;
                   sleeps := uploadRetrySleep (provider i) :: sleeps run;
                   finalFS := finalFS run |}
          end
      end
  end.

(** [gceInstance.UploadScript] *)
Definition UploadScript (i : gceInstance) (its : list UploadIteration) (fs : RemoteFS)
           (script : string) : uploadRun :=
  uploader i script 0 its fs.

(** The errors of the attempts of a script of iterations when each is run
    in turn on the file system its predecessor left, whatever the
    uploader makes of them. *)
Fixpoint attemptErrors (i : gceInstance) (script : string) (its : list UploadIteration)
         (fs : RemoteFS) : list (option error) :=
  match its with
  | [] => []
  | it :: rest =>
      let '(i, fs, err) := uploadScriptAttempt i (attemptWorld it) fs script in
      err :: attemptErrors i script rest fs
  end.

(** ** RunScript *)

Record RunResult := {
  Completed : bool;
  ExitCode : Z
}.

Record RunWorld := {
  rRefresh : result Instance;
  rDial : string -> option error;
  rNewSession : option error;
  rRequestPty : option error;
  rRun : option error
}.

(** The conversion [uint8(n)] of an [int]. *)
Definition uint8 (n : Z) : Z := n mod 256.

(** [gceInstance.RunScript] *)
Definition RunScript (i : gceInstance) (w : RunWorld) : RunResult * option error :=
  match sshClient i (rRefresh w) (rDial w) with
  | (_, Some err) => ({| Completed := false; ExitCode := 0 |}, Some err)
  | (_, None) =>
      match rNewSession w with
      | Some err => ({| Completed := false; ExitCode := 0 |}, Some err)
      | None =>
          match rRequestPty w with
          | Some err => ({| Completed := false; ExitCode := 0 |}, Some err)
          | None =>
              match rRun w with
              | None => ({| Completed := true; ExitCode := 0 |}, None)
              | Some (ExitError status) =>
                  ({| Completed := true; ExitCode := uint8 status |}, None)
              | Some err => ({| Completed := false; ExitCode := 0 |}, Some err)
              end
          end
      end
  end.

(** ** Stop *)

Record StopWorld := {
  Instances_Delete : string -> result Operation;
  deleteAnswers : list (result Operation);
  ctxWhileStopping : option error
}.

(** [gceInstance.Stop]: how the call ends, and the sleeps of its poller
    before that. *)
Definition Stop (i : gceInstance) (w : StopWorld) : termination (option error) * list Z :=
  match Instances_Delete w (instName (instance i)) with
  | Err err => (Returns (Some err), [])
  | Ok op =>
      let '(poller, n) := stopPoller (deleteAnswers w) in
      let slept := replicate n (bootPollSleep (provider i)) in
      match ctxWhileStopping w with
      | Some ctxErr => (Returns (Some ctxErr), slept)
      | None =>
          match poller with
          | SendErr err => (Returns (Some err), slept)
          | SendDone => (Returns None, slept)
          | StillPolling => (Blocks, slept)
          end
      end
  end.

(** [gceInstance.ID] *)
Definition ID (i : gceInstance) : string :=
  instName (instance i) +:+ ":" +:+ imageName i.

(** ** Reading the claims about construction *)

(** An option is malformed when it is set and its parser rejects it. *)
Definition malformed {A} (parse : string -> result A) (cfg : ProviderConfig)
           (key : string) : bool :=
  IsSet cfg key && is_Err (parse (Get cfg key)).

(** Two constructions end alike: with the same error, or with providers
    that differ at most in the mapping they point to. *)
Definition sameOutcome (r1 r2 : result gceProvider) : Prop :=
  match r1, r2 with
  | Err e1, Err e2 => e1 = e2
  | Ok p1, Ok p2 => set_cfg p1 (cfg p2) = p2
  | _, _ => False
  end.

(** ** A sample library, configuration and cloud

    The examples below run the embedded code on these.  The sample
    parsers accept a fragment of what the Go functions accept: decimal
    digits with an optional sign, the twelve spellings of a boolean, and
    digits followed by one unit. *)

Definition isDigit (a : ascii) : bool :=
  (48 <=? nat_of_ascii a)%nat && (nat_of_ascii a <=? 57)%nat.

Fixpoint digitsValue (acc : Z) (s : string) : option (Z * string) :=
  match s with
  | EmptyString => Some (acc, EmptyString)
  | String a s' =>
      if isDigit a then digitsValue (10 * acc + (Z.of_nat (nat_of_ascii a) - 48)) s'
      else Some (acc, s)
  end.

Definition startsWithDigit (s : string) : bool :=
  match s with
  | String a _ => isDigit a
  | EmptyString => false
  end.

Definition invalidSyntax : error := LibError "strconv" "invalid syntax".
Definition outOfRange : error := LibError "strconv" "value out of range".

Definition sampleParseUint (s : string) : result Z :=
  if startsWithDigit s then
    match digitsValue 0 s with
    | Some (v, EmptyString) => if v <=? uint64_max then Ok v else Err outOfRange
    | _ => Err invalidSyntax
    end
  else Err invalidSyntax.

Definition sampleParseInt (s : string) : result Z :=
  let '(sign, digits) :=
    match s with
    | String "-" s' => (-1, s')
    | String "+" s' => (1, s')
    | _ => (1, s)
    end in
  if startsWithDigit digits then
    match digitsValue 0 digits with
    | Some (v, EmptyString) =>
        if (- 2 ^ 63 <=? sign * v) && (sign * v <? 2 ^ 63) then Ok (sign * v)
        else Err outOfRange
    | _ => Err invalidSyntax
    end
  else Err invalidSyntax.

Definition sampleParseBool (s : string) : result bool :=
  if bool_decide (s ∈ ["1"; "t"; "T"; "TRUE"; "true"; "True"]) then Ok true
  else if bool_decide (s ∈ ["0"; "f"; "F"; "FALSE"; "false"; "False"]) then Ok false
  else Err invalidSyntax.

Definition sampleParseDuration (s : string) : result Z :=
  if startsWithDigit s then
    match digitsValue 0 s with
    | Some (v, "ns") => Ok v
    | Some (v, "ms") => Ok (v * 1000000)
    | Some (v, "s") => Ok (v * second)
    | Some (v, "m") => Ok (v * 60 * second)
    | Some (v, "h") => Ok (v * 3600 * second)
    | _ => Err (LibError "time" "invalid duration")
    end
  else Err (LibError "time" "invalid duration").

Definition asciiUpper (a : ascii) : ascii :=
  let n := nat_of_ascii a in
  if (97 <=? n)%nat && (n <=? 122)%nat then ascii_of_nat (n - 32) else a.

Fixpoint sampleToUpper (s : string) : string :=
  match s with
  | EmptyString => EmptyString
  | String a s' => String (asciiUpper a) (sampleToUpper s')
  end.

Definition doubleQuote : string := String (ascii_of_nat 34) EmptyString.

Definition sampleSelector : Selector := {| Select := λ _, Ok "default" |}.

Definition sampleLib : GoLib :=
  {| ioutil_ReadFile := λ path,
       if String.eqb path "/missing" then Err (LibError "os" "no such file")
       else Ok ("contents of " +:+ path);
     json_Unmarshal := λ _,
       Ok {| ClientEmail := "worker@example.iam"; PrivateKey := "key" |};
     strings_TrimSpace := λ s, s;
     strings_ToUpper := sampleToUpper;
     strconv_Quote := λ s, doubleQuote +:+ s +:+ doubleQuote;
     gceCustomHTTPTransport := None;
     compute_New := λ c, Ok {| svcClient := c |};
     pem_Decode := λ bytes, Some bytes;
     x509_DecryptPEMBlock := λ block _, Ok block;
     x509_ParsePKCS1PrivateKey := λ der, Ok der;
     ssh_NewSignerFromKey := λ k, Ok {| signerKey := k |};
     strconv_ParseInt := sampleParseInt;
     strconv_ParseUint := sampleParseUint;
     strconv_ParseBool := sampleParseBool;
     time_ParseDuration := sampleParseDuration;
     url_Parse := λ s, Ok s;
     image_NewEnvSelector := λ _, Ok sampleSelector;
     image_NewAPISelector := λ _, sampleSelector |}.

Definition sampleConfig : ProviderConfig :=
  list_to_map [("PROJECT_ID", "travis-ci"); ("ACCOUNT_JSON", "{}");
               ("SSH_KEY_PATH", "/etc/id_rsa"); ("SSH_PUB_KEY_PATH", "/etc/id_rsa.pub");
               ("SSH_KEY_PASSPHRASE", "secret"); ("LANGUAGE_MAP_OCAML", "ml")].

Definition goImage (suffix : string) : Image :=
  {| Name := "travis-ci-go-" +:+ suffix;
     SelfLink := "projects/travis-ci/global/images/travis-ci-go-" +:+ suffix |}.

Definition minimalImage : Image :=
  {| Name := "travis-ci-minimal-20150101";
     SelfLink := "projects/travis-ci/global/images/travis-ci-minimal-20150101" |}.

Definition sampleCloud : Cloud :=
  {| Zones_Get := λ _ name, Ok {| zoneName := name |};
     MachineTypes_Get := λ _ zone name,
       Ok {| mtSelfLink := "zones/" +:+ zone +:+ "/machineTypes/" +:+ name |};
     Networks_Get := λ _ name, Ok {| nwSelfLink := "global/networks/" +:+ name |};
     Images_List := λ _ filter,
       if String.eqb filter "name eq ^travis-ci-go.+"
       then Ok [goImage "01"; goImage "02"; goImage "00"]
       else if String.eqb filter "name eq ^travis-ci-minimal.+"
       then Ok [minimalImage]
       else if String.eqb filter "name eq ^travis-ci-broken.+"
       then Err (LibError "http" "connection reset")
       else Ok [] |}.

(** The provider [newGCEProvider] builds from the sample configuration,
    after [Setup]. *)
Definition sampleProvider : gceProvider :=
  let c := newGCEProvider_writeBack sampleConfig in
  {| client := {| svcClient :=
                    {| jwtEmail := "worker@example.iam"; jwtPrivateKey := "key";
                       jwtScopes := [DevstorageFullControlScope; ComputeScope];
                       jwtTokenURL := "https://accounts.google.com/o/oauth2/token";
                       Transport := None |} |};
     projectID := "travis-ci";
     ic := {| icMachineType :=
                Some {| mtSelfLink := "zones/us-central1-a/machineTypes/n1-standard-2" |};
              icZone := Some {| zoneName := "us-central1-a" |};
              icNetwork := Some {| nwSelfLink := "global/networks/default" |};
              DiskType := "zones/us-central1-a/diskTypes/pd-ssd";
              DiskSize := 20;
              SSHKeySigner := {| signerKey := "contents of /etc/id_rsa" |};
              SSHPubKey := "contents of /etc/id_rsa.pub";
              AutoImplode := true;
              HardTimeoutMinutes := 130 |};
     cfg := c;
     imageSelectorType := "legacy";
     imageSelector := None;
     instanceGroup := "";
     bootPollSleep := 3 * second;
     defaultLanguage := "minimal";
     defaultImage := "travis-ci-mega.+";
     uploadRetries := 10;
     uploadRetrySleep := 5 * second |}.

Definition attributesFor (language : string) : StartAttributes :=
  {| Language := language; OsxImage := ""; Dist := ""; Group := ""; OS := "linux" |}.

(** ** Reading the claims about the upload *)

(** The retry bound for [UPLOAD_RETRIES = n]: when the context stays
    live and each of the first [n + 1] attempts fails, [UploadScript]
    makes exactly those [n + 1] attempts, sleeps [UPLOAD_RETRY_SLEEP]
    between them, and returns the error of the last one. *)
Definition retryBound (n : Z) : Prop :=
  ∀ (i : gceInstance) (its : list UploadIteration) (fs : RemoteFS) (script : string),
    uploadRetries (provider i) = n →
    (Z.to_nat n + 1 ≤ length its)%nat →
    Forall (λ it, ctxErr it = None) (take (Z.to_nat n + 1) its) →
    Forall is_Some (take (Z.to_nat n + 1) (attemptErrors i script its fs)) →
    let run := UploadScript i its fs script in
    attempts run = take (Z.to_nat n + 1) (attemptErrors i script its fs)
    ∧ length (attempts run) = (Z.to_nat n + 1)%nat
    ∧ sleeps run = replicate (Z.to_nat n) (uploadRetrySleep (provider i))
    ∧ ∃ err, last (attempts run) = Some (Some err)
             ∧ uploadResult run = Returns (Some err).

(** An attempt gets as far as the stale check: the instance record is
    refreshed, it has an address, the SSH and SFTP clients open, and the
    [Lstat] request is answered. *)
Definition reachesStaleCheck (i : gceInstance) (a : AttemptWorld) : bool :=
  bool_decide (snd (sshClient i (aRefresh a) (aDial a)) = None)
  && bool_decide (aNewClient a = None)
  && bool_decide (aLstat a = None).

(** An attempt creates [build.sh] and then fails while writing: it opens
    its clients, [Lstat] does not succeed, [Create] succeeds and [Write]
    fails. *)
Definition createsThenWriteFails (i : gceInstance) (a : AttemptWorld) (fs : RemoteFS)
  : bool :=
  bool_decide (snd (sshClient i (aRefresh a) (aDial a)) = None)
  && bool_decide (aNewClient a = None)
  && (bool_decide (aLstat a ≠ None) || bool_decide (fs !! "build.sh" = None))
  && bool_decide (aCreate a = None)
  && bool_decide (is_Some (aWrite a)).

(** ** Sample instances and upload worlds *)

Definition bootedInstance : Instance :=
  {| Description := "Travis CI go test VM"; Disks := []; Preemptible := true;
     instMachineType := "zones/us-central1-a/machineTypes/n1-standard-2";
     instName := "testing-gce-4f4a";
     Metadata := [];
     NetworkInterfaces :=
       [ {| AccessConfigs := []; niNetwork := "global/networks/internal" |};
         {| AccessConfigs := [ {| acName := "a"; acType := "ONE_TO_ONE_NAT"; NatIP := "" |};
                               {| acName := "b"; acType := "ONE_TO_ONE_NAT";
                                  NatIP := "1.2.3.4" |} ];
            niNetwork := "global/networks/default" |} ];
     ServiceAccounts := []; Tags := ["testing"];
     instSelfLink := "zones/us-central1-a/instances/testing-gce-4f4a" |}.

Definition set_uploadRetries (p : gceProvider) (n : Z) : gceProvider :=
  {| client := client p; projectID := projectID p; ic := ic p; cfg := cfg p;
     imageSelectorType := imageSelectorType p; imageSelector := imageSelector p;
     instanceGroup := instanceGroup p; bootPollSleep := bootPollSleep p;
     defaultLanguage := defaultLanguage p; defaultImage := defaultImage p;
     uploadRetries := n; uploadRetrySleep := uploadRetrySleep p |}.

(** The handle [Start] returns for the sample provider, with
    [UPLOAD_RETRIES = n]. *)
Definition sampleInstance (n : Z) : gceInstance :=
  {| iClient := client sampleProvider;
     provider := set_uploadRetries sampleProvider n;
     instance := bootedInstance;
     iIC := ic sampleProvider;
     authUser := "travis";
     iProjectID := "travis-ci";
     imageName := "travis-ci-go-02" |}.

Definition smoothAttempt : AttemptWorld :=
  {| aRefresh := Ok bootedInstance; aDial := λ _, None; aNewClient := None;
     aLstat := None; aCreate := None; aWrite := None |}.

Definition writeFails : AttemptWorld :=
  {| aRefresh := Ok bootedInstance; aDial := λ _, None; aNewClient := None;
     aLstat := None; aCreate := None;
     aWrite := Some (3%nat, LibError "sftp" "connection lost") |}.

Definition refused : error := LibError "ssh" "connection refused".

Definition dialFails : AttemptWorld :=
  {| aRefresh := Ok bootedInstance;
     aDial := λ _, Some refused;
     aNewClient := None; aLstat := None; aCreate := None; aWrite := None |}.

Definition createFails : AttemptWorld :=
  {| aRefresh := Ok bootedInstance; aDial := λ _, None; aNewClient := None;
     aLstat := None; aCreate := Some (LibError "sftp" "permission denied");
     aWrite := None |}.

Definition live (a : AttemptWorld) : UploadIteration :=
  {| ctxErr := None; attemptWorld := a |}.

(** A guest on which a build script has been uploaded before. *)
Definition usedGuest : RemoteFS := {[ "build.sh" := "echo old" ]}.

(** ** Reading the claims about polling and running *)

(** An answer of [ZoneOperations.Get] that is neither a transport error
    nor an operation whose status is [DONE]. *)
Definition pending (answer : result Operation) : bool :=
  match answer with
  | Ok newOp => negb (String.eqb (Status newOp) "DONE")
  | Err _ => false
  end.

(** What a poller sends on an answer that is not pending. *)
Definition verdict (answer : result Operation) : pollerEnd :=
  match answer with
  | Err err => SendErr err
  | Ok newOp =>
      match opError newOp with
      | Some oe => SendErr (gceOpError oe)
      | None => SendDone
      end
  end.

(** The same answer with the [Error] payload of a pending operation
    removed. *)
Definition clearPendingError (answer : result Operation) : result Operation :=
  match answer with
  | Ok newOp =>
      if String.eqb (Status newOp) "DONE" then answer
      else Ok {| opName := opName newOp; Status := Status newOp; opError := None |}
  | Err _ => answer
  end.

(** The type switch of [RunScript]. *)
Definition isExitError (e : error) : bool :=
  match e with
  | ExitError _ => true
  | _ => false
  end.

(** ** Sample worlds for the life cycle *)

Definition set_instanceGroup (p : gceProvider) (group : string) : gceProvider :=
  {| client := client p; projectID := projectID p; ic := ic p; cfg := cfg p;
     imageSelectorType := imageSelectorType p; imageSelector := imageSelector p;
     instanceGroup := group; bootPollSleep := bootPollSleep p;
     defaultLanguage := defaultLanguage p; defaultImage := defaultImage p;
     uploadRetries := uploadRetries p; uploadRetrySleep := uploadRetrySleep p |}.

Definition operation (name status : string) : Operation :=
  {| opName := name; Status := status; opError := None |}.

Definition quotaExceeded : OperationError :=
  {| Errors := [ {| Code := "QUOTA_EXCEEDED"; Location := "zones/us-central1-a";
                    Message := "out of cpus" |} ] |}.

Definition failedOperation (name status : string) : Operation :=
  {| opName := name; Status := status; opError := Some quotaExceeded |}.

(** The insert goes from [PENDING] to [DONE]; no group, no deadline. *)
Definition calmWorld : StartWorld :=
  {| uuid_NewRandom := "4f4a";
     Instances_Insert := λ _, Ok (operation "op-insert" "PENDING");
     insertAnswers := [Ok (operation "op-insert" "PENDING");
                       Ok (operation "op-insert" "DONE")];
     ctxWhileWaiting := None;
     Instances_Get := λ _, Ok bootedInstance;
     InstanceGroups_AddInstances := λ _ _, Ok (operation "op-add" "PENDING");
     addAnswers := [Ok (operation "op-add" "DONE")];
     ctxWhileSelecting := None |}.

(** As [calmWorld], but the refresh of the instance, once the insert is
    done, fails. *)
Definition refreshFailsWorld : StartWorld :=
  {| uuid_NewRandom := "4f4a";
     Instances_Insert := λ _, Ok (operation "op-insert" "PENDING");
     insertAnswers := [Ok (operation "op-insert" "PENDING");
                       Ok (operation "op-insert" "DONE")];
     ctxWhileWaiting := None;
     Instances_Get := λ _, Err (LibError "googleapi" "503 backend error");
     InstanceGroups_AddInstances := λ _ _, Ok (operation "op-add" "PENDING");
     addAnswers := [Ok (operation "op-add" "DONE")];
     ctxWhileSelecting := None |}.

(** The insert operation ends with an error payload. *)
Definition quotaWorld : StartWorld :=
  {| uuid_NewRandom := "4f4a";
     Instances_Insert := λ _, Ok (operation "op-insert" "PENDING");
     insertAnswers := [Ok (failedOperation "op-insert" "DONE")];
     ctxWhileWaiting := None;
     Instances_Get := λ _, Ok bootedInstance;
     InstanceGroups_AddInstances := λ _ _, Ok (operation "op-add" "PENDING");
     addAnswers := [];
     ctxWhileSelecting := None |}.

(** The insert stays [PENDING] and the deadline passes. *)
Definition deadlineWorld : StartWorld :=
  {| uuid_NewRandom := "4f4a";
     Instances_Insert := λ _, Ok (operation "op-insert" "PENDING");
     insertAnswers := [Ok (operation "op-insert" "PENDING")];
     ctxWhileWaiting := Some DeadlineExceeded;
     Instances_Get := λ _, Ok bootedInstance;
     InstanceGroups_AddInstances := λ _ _, Ok (operation "op-add" "PENDING");
     addAnswers := [];
     ctxWhileSelecting := Some DeadlineExceeded |}.

(** A delete whose operation carries an error payload while it is still
    running, and is then done without one. *)
Definition noisyDelete : StopWorld :=
  {| Instances_Delete := λ _, Ok (operation "op-delete" "PENDING");
     deleteAnswers := [Ok (failedOperation "op-delete" "RUNNING");
                       Ok (operation "op-delete" "RUNNING");
                       Ok (operation "op-delete" "DONE")];
     ctxWhileStopping := None |}.

Definition exitsWith (status : Z) : RunWorld :=
  {| rRefresh := Ok bootedInstance; rDial := λ _, None; rNewSession := None;
     rRequestPty := None; rRun := Some (ExitError status) |}.

Definition unreachable : RunWorld :=
  {| rRefresh := Ok bootedInstance;
     rDial := λ _, Some (LibError "ssh" "connection refused");
     rNewSession := None; rRequestPty := None; rRun := None |}.

(** ** Reading the channel and the pollers *)

(** Every [NatIP] of an instance record, interface by interface and
    access configuration by access configuration. *)
Definition natIPs (inst : Instance) : list string :=
  map NatIP (concat (map AccessConfigs (NetworkInterfaces inst))).

(** The first of them that is not empty, or the empty string. *)
Definition firstNatIP (inst : Instance) : string :=
  default "" (head (filter (λ ip : string, ip ≠ "") (natIPs inst))).

(** An answer on which the poller of [Start] sleeps and polls again: the
    operation is not done and carries no error payload. *)
Definition quiet (answer : result Operation) : bool :=
  match answer with
  | Ok newOp => negb (String.eqb (Status newOp) "DONE") && bool_decide (opError newOp = None)
  | Err _ => false
  end.

(** One entry of an operation error as the [Error] method formats it. *)
Definition renderError (err : OperationErrorErrors) : string :=
  "code=" +:+ Code err +:+ " location=" +:+ Location err +:+ " message=" +:+ Message err.

(** The library with another file system behind [ioutil.ReadFile]. *)
Definition with_ReadFile (L : GoLib) (readFile : string → result string) : GoLib :=
  {| ioutil_ReadFile := readFile;
     json_Unmarshal := json_Unmarshal L;
     strings_TrimSpace := strings_TrimSpace L;
     strings_ToUpper := strings_ToUpper L;
     strconv_Quote := strconv_Quote L;
     gceCustomHTTPTransport := gceCustomHTTPTransport L;
     compute_New := compute_New L;
     pem_Decode := pem_Decode L;
     x509_DecryptPEMBlock := x509_DecryptPEMBlock L;
     x509_ParsePKCS1PrivateKey := x509_ParsePKCS1PrivateKey L;
     ssh_NewSignerFromKey := ssh_NewSignerFromKey L;
     strconv_ParseInt := strconv_ParseInt L;
     strconv_ParseUint := strconv_ParseUint L;
     strconv_ParseBool := strconv_ParseBool L;
     time_ParseDuration := time_ParseDuration L;
     url_Parse := url_Parse L;
     image_NewEnvSelector := image_NewEnvSelector L;
     image_NewAPISelector := image_NewAPISelector L |}.

(** The parameters [imageSelect] hands to the selector. *)
Definition selectorParams (startAttributes : StartAttributes) : Params :=
  {| pInfra := "gce";
     pLanguage := Language startAttributes;
     pOsxImage := OsxImage startAttributes;
     pDist := Dist startAttributes;
     pGroup := Group startAttributes;
     pOS := OS startAttributes |}.

(** * Properties *)

(** ** The byte-wise order and the sort *)

Section Order.

Lemma string_le_refl s : string_le s s = true.
Proof.
  induction s as [|a s IH]; simpl; [done|].
  rewrite N.ltb_irrefl, N.eqb_refl. exact IH.
Qed.

Lemma string_le_total s t : string_le s t = true ∨ string_le t s = true.
Proof.
  revert t. induction s as [|a s IH]; intros [|b t]; simpl; auto.
  destruct (N.ltb_spec (N_of_ascii a) (N_of_ascii b)) as [Hab|Hab]; [by left|].
  destruct (N.ltb_spec (N_of_ascii b) (N_of_ascii a)) as [Hba|Hba]; [by right|].
  assert (N_of_ascii a = N_of_ascii b) as -> by lia.
  rewrite N.eqb_refl. apply IH.
Qed.

Lemma string_le_trans s t u :
  string_le s t = true → string_le t u = true → string_le s u = true.
Proof.
  revert t u. induction s as [|a s IH]; intros [|b t] [|c u]; simpl; try done.
  destruct (N.ltb_spec (N_of_ascii a) (N_of_ascii b)) as [Hab|Hab];
    destruct (N.ltb_spec (N_of_ascii b) (N_of_ascii c)) as [Hbc|Hbc];
    destruct (N.ltb_spec (N_of_ascii a) (N_of_ascii c)) as [Hac|Hac];
    try done; try lia.
  - destruct (N.eqb_spec (N_of_ascii b) (N_of_ascii c)); [lia|done].
  - destruct (N.eqb_spec (N_of_ascii a) (N_of_ascii b)); [lia|done].
  - destruct (N.eqb_spec (N_of_ascii a) (N_of_ascii b)) as [Eab|]; [|done].
    destruct (N.eqb_spec (N_of_ascii b) (N_of_ascii c)) as [Ebc|]; [|done].
    destruct (N.eqb_spec (N_of_ascii a) (N_of_ascii c)); [|lia].
    apply IH.
Qed.

Abbreviation le_str := (λ s t : string, string_le s t = true).

Lemma insertSorted_elem s l x : x ∈ insertSorted s l ↔ x = s ∨ x ∈ l.
Proof.
  induction l as [|t l IH]; simpl.
  - set_solver.
  - destruct (string_le s t); [rewrite !elem_of_cons; tauto|].
    rewrite elem_of_cons, IH, elem_of_cons. tauto.
Qed.

Lemma insertSorted_sorted s l :
  StronglySorted le_str l → StronglySorted le_str (insertSorted s l).
Proof.
  induction 1 as [|t l Hl IH Ht]; simpl.
  - repeat constructor.
  - destruct (string_le s t) eqn:Hst.
    + constructor; [by constructor|].
      constructor; [done|].
      eapply Forall_impl; [exact Ht|].
      intros u Hu. by eapply string_le_trans.
    + constructor; [done|].
      apply Forall_forall. intros u [->|Hu]%insertSorted_elem.
      * destruct (string_le_total s t); congruence.
      * rewrite Forall_forall in Ht. by apply Ht.
Qed.

Lemma sort_Strings_elem l x : x ∈ sort_Strings l ↔ x ∈ l.
Proof.
  induction l as [|t l IH]; simpl; [done|].
  rewrite insertSorted_elem, elem_of_cons, IH. tauto.
Qed.

Lemma sort_Strings_sorted l : StronglySorted le_str (sort_Strings l).
Proof.
  induction l as [|t l IH]; simpl; [constructor|].
  by apply insertSorted_sorted.
Qed.

Lemma sorted_last_greatest l y :
  StronglySorted le_str l → last l = Some y →
  ∀ x, x ∈ l → string_le x y = true.
Proof.
  induction 1 as [|a l Hl IH Ha]; [done|].
  intros Hlast x Hx. destruct l as [|b l].
  - simpl in Hlast. injection Hlast as <-.
    apply list_elem_of_singleton in Hx as ->. apply string_le_refl.
  - change (last (b :: l) = Some y) in Hlast.
    apply elem_of_cons in Hx as [->|Hx]; [|by apply IH].
    rewrite Forall_forall in Ha. apply Ha.
    rewrite last_lookup in Hlast. by eapply list_elem_of_lookup_2.
Qed.

(** The last index of the sorted names holds a name of the list that is
    no smaller than any other. *)
Lemma sort_Strings_last (l : list string) :
  l ≠ [] →
  let sorted := sort_Strings l in
  let g := sorted !!! (length sorted - 1)%nat in
  g ∈ l ∧ ∀ x, x ∈ l → string_le x g = true.
Proof.
  intros Hne sorted g.
  assert (last sorted = Some g) as Hlast.
  { rewrite last_lookup. subst g.
    replace (pred (length sorted)) with (length sorted - 1)%nat by lia.
    apply list_lookup_lookup_total_lt.
    destruct sorted as [|s0 sorted'] eqn:E; [|simpl; lia].
    destruct l as [|t l]; [done|].
    assert (t ∈ sort_Strings (t :: l)) as Ht by (apply sort_Strings_elem; set_solver).
    fold sorted in Ht. rewrite E in Ht. by apply elem_of_nil in Ht. }
  split.
  - apply sort_Strings_elem. rewrite last_lookup in Hlast.
    by eapply list_elem_of_lookup_2.
  - intros x Hx. eapply sorted_last_greatest; [apply sort_Strings_sorted|done|].
    by apply sort_Strings_elem.
Qed.

End Order.

(** ** The image resolver *)

Section ResolverFacts.

Context (L : GoLib) (W : Cloud).

Lemma foldl_images (images : list Image) (m : gmap string Image) (ns : list string) :
  foldl (fun '(imagesByName, imageNames) image =>
           (<[Name image := image]> imagesByName, imageNames ++ [Name image]))
        (m, ns) images
  = (foldl (λ m image, <[Name image := image]> m) m images, ns ++ map Name images).
Proof.
  revert m ns. induction images as [|image images IH]; intros m ns; simpl.
  - by rewrite app_nil_r.
  - rewrite IH. by rewrite <- app_assoc.
Qed.

Lemma imagesByName_lookup (images : list Image) (m : gmap string Image) (n : string) :
  n ∈ map Name images →
  ∃ image, image ∈ images ∧ Name image = n ∧
           foldl (λ m image, <[Name image := image]> m) m images !! n = Some image.
Proof.
  induction images as [|x images IH] using rev_ind; [by intros ?%elem_of_nil|].
  rewrite map_app, foldl_app. simpl. intros Hn.
  destruct (decide (Name x = n)) as [<-|Hne].
  - exists x. rewrite lookup_insert_eq. set_solver.
  - rewrite lookup_insert_ne by done.
    destruct IH as (image & ? & ? & ?); [set_solver|].
    exists image. set_solver.
Qed.

Lemma imageByFilter_nonempty p filter images :
  Images_List W (projectID p) filter = Ok images → images ≠ [] →
  ∃ image, imageByFilter W p filter = Ok image ∧ image ∈ images ∧
           ∀ other, other ∈ images → string_le (Name other) (Name image) = true.
Proof.
  intros HList Hne. unfold imageByFilter. rewrite HList. simpl.
  destruct images as [|i0 images0] eqn:E; [done|]. rewrite <- E in *.
  replace (length images =? 0)%nat with false by (rewrite E; done).
  rewrite foldl_images. simpl.
  destruct (sort_Strings_last (map Name images)) as [Hg Hmax].
  { rewrite E. done. }
  destruct (imagesByName_lookup images ∅ _ Hg) as (image & Hin & Hname & Hlook).
  exists image. split; [|split].
  - f_equal. by apply lookup_total_correct.
  - done.
  - intros other Hother. rewrite Hname. apply Hmax.
    apply list_elem_of_fmap. by exists other.
Qed.

Lemma imageByFilter_empty p filter :
  Images_List W (projectID p) filter = Ok [] →
  imageByFilter W p filter = Err (Errorf ("no image found with filter " +:+ filter)).
Proof. intros HList. unfold imageByFilter. by rewrite HList. Qed.

Lemma imageByFilter_transport p filter e :
  Images_List W (projectID p) filter = Err e → imageByFilter W p filter = Err e.
Proof. intros HList. unfold imageByFilter. by rewrite HList. Qed.

(** C5: of a non-empty list returned by [Images.List], [imageByFilter]
    returns an image of that list whose name is greatest in the
    byte-wise order; for an empty list it returns the error "no image
    found with filter" followed by the filter. *)
Theorem imageByFilter_greatest p filter images :
  Images_List W (projectID p) filter = Ok images →
  (images = [] →
   imageByFilter W p filter = Err (Errorf ("no image found with filter " +:+ filter)))
  ∧ (images ≠ [] →
     ∃ image, imageByFilter W p filter = Ok image ∧ image ∈ images ∧
              ∀ other, other ∈ images → string_le (Name other) (Name image) = true).
Proof.
  intros HList. split.
  - intros ->. by apply imageByFilter_empty.
  - by apply imageByFilter_nonempty.
Qed.

Lemma imageForLanguage_yields p language :
  yields W p language = true → ∃ image, imageForLanguage W p language = Ok image.
Proof.
  unfold yields, imageForLanguage. intros Hy.
  destruct (Images_List W (projectID p) (gceImageTravisCIPrefixFilter language))
    as [[|i0 images]|e] eqn:HList; try done.
  destruct (imageByFilter_nonempty p _ _ HList) as (image & -> & _); [done|].
  by exists image.
Qed.

Lemma imageForLanguage_no_yield p language :
  yields W p language = false → ∃ e, imageForLanguage W p language = Err e.
Proof.
  unfold yields, imageForLanguage. intros Hy.
  destruct (Images_List W (projectID p) (gceImageTravisCIPrefixFilter language))
    as [[|i0 images]|e] eqn:HList; try done.
  - rewrite (imageByFilter_empty _ _ HList). eauto.
  - rewrite (imageByFilter_transport _ _ _ HList). eauto.
Qed.

Lemma rangeCandidates_first p pre language post acc :
  (∀ c, c ∈ pre → yields W p c = false) → yields W p language = true →
  rangeCandidates W p (pre ++ language :: post) acc
  = pairOf (imageForLanguage W p language).
Proof.
  revert acc. induction pre as [|c pre IH]; intros acc Hpre Hy; simpl.
  - destruct (imageForLanguage_yields _ _ Hy) as [image ->]. done.
  - destruct (imageForLanguage_no_yield p c) as [e ->]; [apply Hpre; set_solver|].
    apply IH; [|done]. intros c' Hc'. apply Hpre. set_solver.
Qed.

Lemma rangeCandidates_none p langs language acc :
  (∀ c, c ∈ langs ++ [language] → yields W p c = false) →
  rangeCandidates W p (langs ++ [language]) acc
  = pairOf (imageForLanguage W p language)
  ∧ is_Err (imageForLanguage W p language) = true.
Proof.
  revert acc. induction langs as [|c langs IH]; intros acc Hno; simpl.
  - destruct (imageForLanguage_no_yield p language) as [e ->]; [apply Hno; set_solver|].
    done.
  - destruct (imageForLanguage_no_yield p c) as [e ->]; [apply Hno; set_solver|].
    apply IH. intros c' Hc'. apply Hno. set_solver.
Qed.

(** C6: the legacy selector tries the mapped language when
    [LANGUAGE_MAP_] followed by the upper-cased language is set, the raw
    language otherwise, and the default language after it; each
    candidate is looked up under the filter [name eq ^travis-ci-LANG.+];
    the first candidate for which the cloud lists an image decides the
    result, and when none does the result is the error of the last
    candidate. *)
Theorem legacyImageSelect_candidates p startAttributes :
  let mappedLang := "LANGUAGE_MAP_" +:+ strings_ToUpper L (Language startAttributes) in
  let first := if IsSet (cfg p) mappedLang then Get (cfg p) mappedLang
               else Language startAttributes in
  candidateLangs L p startAttributes = [first; defaultLanguage p]
  ∧ (∀ language, imageForLanguage W p language
                 = imageByFilter W p ("name eq ^travis-ci-" +:+ language +:+ ".+"))
  ∧ (∀ pre language post,
       candidateLangs L p startAttributes = pre ++ language :: post →
       (∀ c, c ∈ pre → yields W p c = false) → yields W p language = true →
       ∃ image, imageForLanguage W p language = Ok image
                ∧ legacyImageSelect L W p startAttributes = (Some image, None))
  ∧ ((∀ c, c ∈ candidateLangs L p startAttributes → yields W p c = false) →
     ∃ e, imageForLanguage W p (defaultLanguage p) = Err e
          ∧ legacyImageSelect L W p startAttributes = (None, Some e)).
Proof.
  intros mappedLang first.
  assert (candidateLangs L p startAttributes = [first; defaultLanguage p]) as Hc.
  { unfold candidateLangs. fold mappedLang. subst first.
    by destruct (IsSet (cfg p) mappedLang). }
  split; [done|]. split; [done|]. split.
  - intros pre language post Hsplit Hpre Hy. unfold legacyImageSelect.
    rewrite Hsplit, (rangeCandidates_first _ _ _ _ _ Hpre Hy).
    destruct (imageForLanguage_yields _ _ Hy) as [image ->]. by exists image.
  - intros Hno. unfold legacyImageSelect. rewrite Hc in *.
    destruct (rangeCandidates_none p [first] (defaultLanguage p) (None, None) Hno)
      as [Hr Herr].
    change ([first] ++ [defaultLanguage p]) with [first; defaultLanguage p] in Hr.
    rewrite Hr.
    destruct (imageForLanguage W p (defaultLanguage p)) as [image|e]; [done|].
    by exists e.
Qed.

End ResolverFacts.

(** ** Construction *)

Section ConfigFacts.

Implicit Types (cfg : ProviderConfig) (k key : string).

Lemma IsSet_Set_eq cfg k v : IsSet (Set_ cfg k v) k = true.
Proof. unfold IsSet, Set_. rewrite lookup_insert_eq. by apply bool_decide_eq_true. Qed.

Lemma IsSet_Set_ne cfg k key v : k ≠ key → IsSet (Set_ cfg k v) key = IsSet cfg key.
Proof. intros. unfold IsSet, Set_. by rewrite lookup_insert_ne. Qed.

Lemma Get_Set_eq cfg k v : Get (Set_ cfg k v) k = v.
Proof. unfold Get, Set_. by rewrite lookup_insert_eq. Qed.

Lemma Get_Set_ne cfg k key v : k ≠ key → Get (Set_ cfg k v) key = Get cfg key.
Proof. intros. unfold Get, Set_. by rewrite lookup_insert_ne. Qed.

Lemma IsSet_Unset_ne cfg k key : k ≠ key → IsSet (Unset cfg k) key = IsSet cfg key.
Proof. intros. unfold IsSet, Unset. by rewrite lookup_delete_ne. Qed.

Lemma IsSet_Unset_eq cfg k : IsSet (Unset cfg k) k = false.
Proof. unfold IsSet, Unset. rewrite lookup_delete_eq. apply bool_decide_eq_false. by intros []. Qed.

Lemma Get_Unset_ne cfg k key : k ≠ key → Get (Unset cfg k) key = Get cfg key.
Proof. intros. unfold Get, Unset. by rewrite lookup_delete_ne. Qed.

Lemma Set_Unset_ne cfg k key v : k ≠ key → Set_ (Unset cfg k) key v = Unset (Set_ cfg key v) k.
Proof. intros. unfold Set_, Unset. by rewrite delete_insert_ne. Qed.

End ConfigFacts.

Ltac other_key :=
  repeat first
    [ rewrite IsSet_Set_eq | rewrite Get_Set_eq | rewrite IsSet_Unset_eq
    | rewrite IsSet_Set_ne by done | rewrite Get_Set_ne by done
    | rewrite IsSet_Unset_ne by done | rewrite Get_Unset_ne by done ].

Section ConstructionFacts.

Context (L : GoLib).

Lemma writeBack_IsSet cfg key :
  key ≠ "ZONE" → key ≠ "MACHINE_TYPE" → key ≠ "NETWORK" →
  IsSet (newGCEProvider_writeBack cfg) key = IsSet cfg key.
Proof. intros. unfold newGCEProvider_writeBack. by rewrite !IsSet_Set_ne. Qed.

Lemma writeBack_Get cfg key :
  key ≠ "ZONE" → key ≠ "MACHINE_TYPE" → key ≠ "NETWORK" →
  Get (newGCEProvider_writeBack cfg) key = Get cfg key.
Proof. intros. unfold newGCEProvider_writeBack. by rewrite !Get_Set_ne. Qed.

Lemma writeBack_Unset cfg key :
  key ≠ "ZONE" → key ≠ "MACHINE_TYPE" → key ≠ "NETWORK" →
  newGCEProvider_writeBack (Unset cfg key) = Unset (newGCEProvider_writeBack cfg) key.
Proof.
  intros. unfold newGCEProvider_writeBack. other_key.
  by rewrite !Set_Unset_ne.
Qed.

Lemma keys_Unset cfg :
  newGCEProvider_keys L (Unset cfg "DISK_SIZE") = newGCEProvider_keys L cfg.
Proof.
  unfold newGCEProvider_keys, buildGoogleComputeService. by other_key.
Qed.

Ltac step_bind :=
  match goal with
  | |- context [mbind _ ?r] =>
      let E := fresh "E" in destruct r eqn:E; simpl; try done
  | |- context [match ?r with Ok _ => _ | Err _ => _ end] =>
      let E := fresh "E" in destruct r eqn:E; simpl; try done
  end.

Lemma options_cfg c km p : newGCEProvider_options L c km = Ok p → cfg p = c.
Proof.
  unfold newGCEProvider_options.
  repeat (step_bind || (match goal with
                        | |- context [if ?b then _ else _] => destruct b; simpl; try done
                        end)).
  all: by intros [= <-].
Qed.

(** C8: once the key material is loaded, construction leaves [ZONE],
    [MACHINE_TYPE] and [NETWORK] set on the mapping to the configured
    value, or to [us-central1-a], [n1-standard-2] and [default] when the
    option was not set; the provider it returns reads that mapping. *)
Theorem newGCEProvider_writes_back c km :
  newGCEProvider_keys L c = Ok km →
  let c' := fst (newGCEProvider L c) in
  (IsSet c' "ZONE" = true
   ∧ Get c' "ZONE" = if IsSet c "ZONE" then Get c "ZONE" else "us-central1-a")
  ∧ (IsSet c' "MACHINE_TYPE" = true
     ∧ Get c' "MACHINE_TYPE"
       = if IsSet c "MACHINE_TYPE" then Get c "MACHINE_TYPE" else "n1-standard-2")
  ∧ (IsSet c' "NETWORK" = true
     ∧ Get c' "NETWORK" = if IsSet c "NETWORK" then Get c "NETWORK" else "default")
  ∧ ∀ p, snd (newGCEProvider L c) = Ok p → cfg p = c'.
Proof.
  intros Hkeys. unfold newGCEProvider. rewrite Hkeys. simpl.
  split; [|split; [|split]].
  - unfold newGCEProvider_writeBack. other_key. by split.
  - unfold newGCEProvider_writeBack. other_key. by split.
  - unfold newGCEProvider_writeBack. other_key. by split.
  - intros p. apply options_cfg.
Qed.

Ltac split_malformed H :=
  let Hset := fresh "Hset" in
  let Hbad := fresh "Hbad" in
  unfold malformed in H; apply andb_true_iff in H as [Hset Hbad];
  match type of Hbad with
  | is_Err ?r = true =>
      let e := fresh "e" in
      let E := fresh "Eparse" in
      destruct r as [?|e] eqn:E; [discriminate Hbad|]; clear Hbad
  end.

Ltac enter_options :=
  unfold newGCEProvider;
  destruct (newGCEProvider_keys L _) as [km|?]; [|done]; simpl;
  unfold newGCEProvider_options;
  rewrite ?writeBack_IsSet, ?writeBack_Get by done.

Ltac step_if :=
  match goal with
  | |- context [if ?b then _ else _] => destruct b; simpl; try done
  end.

Lemma bootPollSleep_fatal c :
  malformed (time_ParseDuration L) c "BOOT_POLL_SLEEP" = true →
  is_Err (snd (newGCEProvider L c)) = true.
Proof.
  intros H. split_malformed H. enter_options.
  rewrite Hset, Eparse. done.
Qed.

Lemma uploadRetries_fatal c :
  malformed (strconv_ParseUint L) c "UPLOAD_RETRIES" = true →
  is_Err (snd (newGCEProvider L c)) = true.
Proof.
  intros H. split_malformed H. enter_options.
  rewrite Hset, Eparse. step_bind.
Qed.

Lemma uploadRetrySleep_fatal c :
  malformed (time_ParseDuration L) c "UPLOAD_RETRY_SLEEP" = true →
  is_Err (snd (newGCEProvider L c)) = true.
Proof.
  intros H. split_malformed H. enter_options.
  rewrite Hset, Eparse. do 2 step_bind.
Qed.

Lemma autoImplode_fatal c :
  malformed (strconv_ParseBool L) c "AUTO_IMPLODE" = true →
  is_Err (snd (newGCEProvider L c)) = true.
Proof.
  intros H. split_malformed H. enter_options.
  rewrite Hset, Eparse. do 3 step_bind.
Qed.

Lemma hardTimeoutMinutes_fatal c :
  malformed (strconv_ParseInt L) c "HARD_TIMEOUT_MINUTES" = true →
  is_Err (snd (newGCEProvider L c)) = true.
Proof.
  intros H. split_malformed H. enter_options.
  rewrite Hset, Eparse. do 4 step_bind.
Qed.

Lemma diskSize_default c p :
  malformed (strconv_ParseInt L) c "DISK_SIZE" = true →
  snd (newGCEProvider L c) = Ok p → DiskSize (ic p) = 20.
Proof.
  intros H. split_malformed H. unfold newGCEProvider.
  destruct (newGCEProvider_keys L c) as [km|?]; [|done]. simpl.
  unfold newGCEProvider_options.
  rewrite ?writeBack_IsSet, ?writeBack_Get by done.
  rewrite Hset, Eparse.
  repeat (step_bind || step_if).
  all: by intros [= <-].
Qed.

Lemma options_Unset c km :
  malformed (strconv_ParseInt L) c "DISK_SIZE" = true →
  (∀ c0, image_NewEnvSelector L (Unset c0 "DISK_SIZE") = image_NewEnvSelector L c0) →
  sameOutcome (newGCEProvider_options L c km)
              (newGCEProvider_options L (Unset c "DISK_SIZE") km).
Proof.
  intros H Henv. split_malformed H.
  unfold newGCEProvider_options, buildGCEImageSelector.
  rewrite Henv. other_key. rewrite Hset, Eparse.
  repeat (step_bind || step_if).
Qed.

Lemma diskSize_not_fatal c :
  malformed (strconv_ParseInt L) c "DISK_SIZE" = true →
  (∀ c0, image_NewEnvSelector L (Unset c0 "DISK_SIZE") = image_NewEnvSelector L c0) →
  sameOutcome (snd (newGCEProvider L c))
              (snd (newGCEProvider L (Unset c "DISK_SIZE"))).
Proof.
  intros H Henv. unfold newGCEProvider. rewrite keys_Unset.
  destruct (newGCEProvider_keys L c) as [km|?]; [|done]. simpl.
  rewrite writeBack_Unset by done.
  apply options_Unset; [|done].
  unfold malformed in *. by rewrite writeBack_IsSet, writeBack_Get.
Qed.

(** C4: a set [BOOT_POLL_SLEEP], [UPLOAD_RETRIES], [UPLOAD_RETRY_SLEEP],
    [AUTO_IMPLODE] or [HARD_TIMEOUT_MINUTES] that its parser rejects
    makes construction fail.  A set [DISK_SIZE] that [ParseInt] rejects
    does not: a provider that is returned has disk size 20, and
    construction ends as it does on the same mapping without
    [DISK_SIZE] (the env selector is built from the whole mapping by
    code that is not at hand; it is taken not to read [DISK_SIZE]). *)
Theorem newGCEProvider_typed_options c :
  (malformed (time_ParseDuration L) c "BOOT_POLL_SLEEP" = true →
   is_Err (snd (newGCEProvider L c)) = true)
  ∧ (malformed (strconv_ParseUint L) c "UPLOAD_RETRIES" = true →
     is_Err (snd (newGCEProvider L c)) = true)
  ∧ (malformed (time_ParseDuration L) c "UPLOAD_RETRY_SLEEP" = true →
     is_Err (snd (newGCEProvider L c)) = true)
  ∧ (malformed (strconv_ParseBool L) c "AUTO_IMPLODE" = true →
     is_Err (snd (newGCEProvider L c)) = true)
  ∧ (malformed (strconv_ParseInt L) c "HARD_TIMEOUT_MINUTES" = true →
     is_Err (snd (newGCEProvider L c)) = true)
  ∧ (malformed (strconv_ParseInt L) c "DISK_SIZE" = true →
     (∀ p, snd (newGCEProvider L c) = Ok p → DiskSize (ic p) = 20)
     ∧ ((∀ c0, image_NewEnvSelector L (Unset c0 "DISK_SIZE")
               = image_NewEnvSelector L c0) →
        sameOutcome (snd (newGCEProvider L c))
                    (snd (newGCEProvider L (Unset c "DISK_SIZE"))))).
Proof.
  repeat split.
  - apply bootPollSleep_fatal.
  - apply uploadRetries_fatal.
  - apply uploadRetrySleep_fatal.
  - apply autoImplode_fatal.
  - apply hardTimeoutMinutes_fatal.
  - intros p. by apply diskSize_default.
  - by apply diskSize_not_fatal.
Qed.

End ConstructionFacts.

(** ** The sample world behaves as the Go libraries would *)

Example sampleProvider_constructed :
  ∃ p, snd (newGCEProvider sampleLib sampleConfig) = Ok p
       ∧ Setup sampleCloud p = (sampleProvider, None).
Proof. eexists. split; vm_compute; reflexivity. Qed.

Example imageByFilter_tiebreak :
  imageByFilter sampleCloud sampleProvider "name eq ^travis-ci-go.+" = Ok (goImage "02").
Proof. vm_compute. reflexivity. Qed.

Example imageByFilter_no_image :
  imageByFilter sampleCloud sampleProvider "name eq ^travis-ci-rust.+"
  = Err (Errorf "no image found with filter name eq ^travis-ci-rust.+").
Proof. vm_compute. reflexivity. Qed.

Lemma imageByFilter_greatest_witness :
  ∃ image,
    imageByFilter sampleCloud sampleProvider "name eq ^travis-ci-go.+" = Ok image
    ∧ image ∈ [goImage "01"; goImage "02"; goImage "00"]
    ∧ ∀ other, other ∈ [goImage "01"; goImage "02"; goImage "00"] →
               string_le (Name other) (Name image) = true.
Proof.
  apply (proj2 (imageByFilter_greatest sampleCloud sampleProvider
                  "name eq ^travis-ci-go.+" _ eq_refl)).
  discriminate.
Defined.

Example legacyImageSelect_fallback :
  legacyImageSelect sampleLib sampleCloud sampleProvider (attributesFor "ocaml")
  = (Some minimalImage, None).
Proof. vm_compute. reflexivity. Qed.

Example legacyImageSelect_skips_failures :
  legacyImageSelect sampleLib sampleCloud
    (set_cfg sampleProvider (Set_ sampleConfig "LANGUAGE_MAP_GO" "rust"))
    (attributesFor "go")
  = (Some minimalImage, None)
  ∧ legacyImageSelect sampleLib sampleCloud
      (set_cfg sampleProvider (Set_ sampleConfig "LANGUAGE_MAP_MINIMAL" "broken"))
      (attributesFor "minimal")
    = (Some minimalImage, None).
Proof. split; vm_compute; reflexivity. Qed.

Example legacyImageSelect_last_error :
  legacyImageSelect sampleLib
    {| Zones_Get := Zones_Get sampleCloud;
       MachineTypes_Get := MachineTypes_Get sampleCloud;
       Networks_Get := Networks_Get sampleCloud;
       Images_List := λ _ filter,
         if String.eqb filter "name eq ^travis-ci-minimal.+"
         then Err (LibError "http" "connection reset")
         else Ok [] |}
    sampleProvider (attributesFor "go")
  = (None, Some (LibError "http" "connection reset")).
Proof. vm_compute. reflexivity. Qed.

Lemma legacyImageSelect_candidates_witness :
  ∃ image,
    imageForLanguage sampleCloud sampleProvider "minimal" = Ok image
    ∧ legacyImageSelect sampleLib sampleCloud sampleProvider (attributesFor "ocaml")
      = (Some image, None).
Proof.
  destruct (legacyImageSelect_candidates sampleLib sampleCloud sampleProvider
              (attributesFor "ocaml")) as (_ & _ & Hfirst & _).
  apply (Hfirst ["ml"] "minimal" []).
  - reflexivity.
  - intros c Hc. apply list_elem_of_singleton in Hc. rewrite Hc. reflexivity.
  - reflexivity.
Defined.

Lemma newGCEProvider_writes_back_witness :
  let c' := fst (newGCEProvider sampleLib (Set_ sampleConfig "ZONE" "europe-west1-b")) in
  Get c' "ZONE" = "europe-west1-b"
  ∧ Get c' "MACHINE_TYPE" = "n1-standard-2"
  ∧ Get c' "NETWORK" = "default".
Proof.
  assert (∃ km, newGCEProvider_keys sampleLib (Set_ sampleConfig "ZONE" "europe-west1-b")
                = Ok km) as [km Hkeys] by (vm_compute; eauto).
  destruct (newGCEProvider_writes_back sampleLib _ km Hkeys)
    as ([_ Hzone] & [_ Hmt] & [_ Hnw] & _).
  split; [exact Hzone|]. split; [exact Hmt|exact Hnw].
Defined.

Example newGCEProvider_disk_size_fallback :
  ∃ p, snd (newGCEProvider sampleLib (Set_ sampleConfig "DISK_SIZE" "forty")) = Ok p
       ∧ DiskSize (ic p) = 20.
Proof. eexists. split; vm_compute; reflexivity. Qed.

Example newGCEProvider_disk_size_read :
  ∃ p, snd (newGCEProvider sampleLib (Set_ sampleConfig "DISK_SIZE" "40")) = Ok p
       ∧ DiskSize (ic p) = 40.
Proof. eexists. split; vm_compute; reflexivity. Qed.

Lemma newGCEProvider_typed_options_witness :
  is_Err (snd (newGCEProvider sampleLib (Set_ sampleConfig "UPLOAD_RETRIES" "-1"))) = true
  ∧ is_Err (snd (newGCEProvider sampleLib (Set_ sampleConfig "AUTO_IMPLODE" "yes"))) = true
  ∧ sameOutcome
      (snd (newGCEProvider sampleLib (Set_ sampleConfig "DISK_SIZE" "forty")))
      (snd (newGCEProvider sampleLib
              (Unset (Set_ sampleConfig "DISK_SIZE" "forty") "DISK_SIZE"))).
Proof.
  split; [|split].
  - destruct (newGCEProvider_typed_options sampleLib
                (Set_ sampleConfig "UPLOAD_RETRIES" "-1")) as (_ & H & _).
    apply H. reflexivity.
  - destruct (newGCEProvider_typed_options sampleLib
                (Set_ sampleConfig "AUTO_IMPLODE" "yes")) as (_ & _ & _ & H & _).
    apply H. reflexivity.
  - destruct (newGCEProvider_typed_options sampleLib
                (Set_ sampleConfig "DISK_SIZE" "forty")) as (_ & _ & _ & _ & _ & H).
    apply H; [reflexivity|]. intros c0. reflexivity.
Defined.

(** ** Uploading the script *)

Section UploadFacts.

Implicit Types (i : gceInstance) (a : AttemptWorld) (fs : RemoteFS)
         (its : list UploadIteration) (script : string).

Lemma sshClient_provider i r d : provider (fst (sshClient i r d)) = provider i.
Proof.
  unfold sshClient, refreshInstance. destruct r as [inst|e]; simpl; [|done].
  by destruct (String.eqb _ _).
Qed.

Lemma sshClient_error_any i j r d : snd (sshClient i r d) = snd (sshClient j r d).
Proof.
  unfold sshClient, refreshInstance. destruct r as [inst|e]; simpl; [|done].
  change (getIP (set_instance i inst)) with (getIP (set_instance j inst)).
  by destruct (String.eqb _ _).
Qed.

Lemma attempt_provider i a fs script :
  provider (uploadScriptAttempt i a fs script).1.1 = provider i.
Proof.
  unfold uploadScriptAttempt.
  pose proof (sshClient_provider i (aRefresh a) (aDial a)) as Hp.
  destruct (sshClient i (aRefresh a) (aDial a)) as [i' [e|]]; simpl in *; [done|].
  destruct (aNewClient a); [done|].
  destruct (aLstat a); [|destruct (fs !! "build.sh")]; simpl;
    try done; destruct (aCreate a); try done; by destruct (aWrite a) as [[]|].
Qed.

Lemma attempt_keeps_file i a fs script :
  is_Some (fs !! "build.sh") →
  is_Some ((uploadScriptAttempt i a fs script).1.2 !! "build.sh").
Proof.
  intros Hfile. unfold uploadScriptAttempt.
  destruct (sshClient i (aRefresh a) (aDial a)) as [i' [e|]]; simpl; [done|].
  destruct (aNewClient a); [done|].
  destruct (aLstat a); [|destruct (fs !! "build.sh") eqn:E]; simpl; try done;
    destruct (aCreate a); simpl; try done;
    destruct (aWrite a) as [[]|]; simpl;
    first [by rewrite lookup_insert_eq | by rewrite E].
Qed.

Lemma attempt_stale i a fs script :
  is_Some (fs !! "build.sh") → reachesStaleCheck i a = true →
  uploadScriptAttempt i a fs script
  = (fst (sshClient i (aRefresh a) (aDial a)), fs, Some ErrStaleVM).
Proof.
  intros [old Hfile] Hreach. unfold reachesStaleCheck in Hreach.
  apply andb_true_iff in Hreach as [[Hssh Hnew]%andb_true_iff Hlstat].
  apply bool_decide_eq_true in Hssh, Hnew, Hlstat.
  unfold uploadScriptAttempt.
  destruct (sshClient i (aRefresh a) (aDial a)) as [i' e]; simpl in *. subst e.
  by rewrite Hnew, Hlstat, Hfile.
Qed.

Lemma attempt_partial_write i a fs script :
  createsThenWriteFails i a fs = true →
  is_Some (uploadScriptAttempt i a fs script).2
  ∧ is_Some ((uploadScriptAttempt i a fs script).1.2 !! "build.sh").
Proof.
  unfold createsThenWriteFails. intros H.
  apply andb_true_iff in H as [H Hwrite].
  apply andb_true_iff in H as [H Hcreate].
  apply andb_true_iff in H as [H Hlstat].
  apply andb_true_iff in H as [Hssh Hnew].
  apply bool_decide_eq_true in Hssh, Hnew, Hcreate, Hwrite.
  unfold uploadScriptAttempt.
  destruct (sshClient i (aRefresh a) (aDial a)) as [i' e]; simpl in *. subst e.
  rewrite Hnew, Hcreate. destruct Hwrite as [[n e] ->].
  apply orb_true_iff in Hlstat as [Hl|Hl]; apply bool_decide_eq_true in Hl.
  - destruct (aLstat a); [|done]. simpl. by rewrite lookup_insert_eq.
  - rewrite Hl. destruct (aLstat a); simpl; by rewrite lookup_insert_eq.
Qed.

(** Once [build.sh] exists, every later attempt that reaches the stale
    check returns [ErrStaleVM]. *)
Lemma attemptErrors_stale script its :
  ∀ i j fs k it,
    is_Some (fs !! "build.sh") →
    its !! k = Some it → reachesStaleCheck j (attemptWorld it) = true →
    attemptErrors i script its fs !! k = Some (Some ErrStaleVM).
Proof.
  induction its as [|it0 its IH]; intros i j fs k it Hfile Hk Hreach; [done|].
  simpl.
  destruct (uploadScriptAttempt i (attemptWorld it0) fs script)
    as [[i' fs'] err] eqn:E.
  destruct k as [|k]; simpl in *.
  - injection Hk as ->.
    assert (reachesStaleCheck i (attemptWorld it) = true) as Hreach'.
    { unfold reachesStaleCheck in *.
      by rewrite (sshClient_error_any i j). }
    rewrite (attempt_stale _ _ _ _ Hfile Hreach') in E. by injection E as _ _ <-.
  - eapply IH; [|done..].
    pose proof (attempt_keeps_file i (attemptWorld it0) fs script Hfile) as Hkeep.
    by rewrite E in Hkeep.
Qed.

(** The attempts the uploader makes are the first of the attempts its
    iterations allow. *)
Lemma attempts_prefix script its :
  ∀ i fs errCount k x,
    attempts (uploader i script errCount its fs) !! k = Some x →
    attemptErrors i script its fs !! k = Some x.
Proof.
  induction its as [|it its IH]; intros i fs errCount k x; simpl; [done|].
  destruct (ctxErr it); [done|].
  destruct (uploadScriptAttempt i (attemptWorld it) fs script) as [[i' fs'] [err|]].
  - destruct (uint64_incr errCount >? uploadRetries (provider i')).
    + destruct k; simpl; [done|]. by destruct k.
    + destruct k; simpl; [done|]. apply IH.
  - destruct k; simpl; [done|]. by destruct k.
Qed.

(** C9, amended: after an attempt that creates [build.sh] and fails
    while writing, the file is on the guest, and every later attempt of
    the same call that gets as far as the stale check returns
    [ErrStaleVM]. *)
Theorem stale_after_partial_write i a fs script :
  createsThenWriteFails i a fs = true →
  let i1 := (uploadScriptAttempt i a fs script).1.1 in
  let fs1 := (uploadScriptAttempt i a fs script).1.2 in
  is_Some (uploadScriptAttempt i a fs script).2
  ∧ is_Some (fs1 !! "build.sh")
  ∧ ∀ its errCount k it x,
      its !! k = Some it →
      reachesStaleCheck i (attemptWorld it) = true →
      attempts (uploader i1 script errCount its fs1) !! k = Some x →
      x = Some ErrStaleVM.
Proof.
  intros Hpartial i1 fs1.
  destruct (attempt_partial_write i a fs script Hpartial) as [Herr Hfile].
  split; [done|]. split; [done|].
  intros its errCount k it x Hk Hreach Hx.
  apply attempts_prefix in Hx.
  rewrite (attemptErrors_stale script its i1 i fs1 k it Hfile Hk Hreach) in Hx.
  by injection Hx.
Qed.

(** C2, amended: an attempt error, [ErrStaleVM] like any other,
    increments the counter; it is returned at once only when the counter
    then exceeds [UPLOAD_RETRIES], and otherwise the uploader sleeps
    [UPLOAD_RETRY_SLEEP] and goes on with the next attempt. *)
Theorem uploader_counts_every_error i it rest fs script errCount i' fs' err :
  ctxErr it = None →
  uploadScriptAttempt i (attemptWorld it) fs script = (i', fs', Some err) →
  let run := uploader i script errCount (it :: rest) fs in
  let next := uploader i' script (uint64_incr errCount) rest fs' in
  (uint64_incr errCount > uploadRetries (provider i) →
   uploadResult run = Returns (Some err)
   ∧ attempts run = [Some err] ∧ sleeps run = [] ∧ finalFS run = fs')
  ∧ (uint64_incr errCount ≤ uploadRetries (provider i) →
     uploadResult run = uploadResult next
     ∧ attempts run = Some err :: attempts next
     ∧ sleeps run = uploadRetrySleep (provider i) :: sleeps next
     ∧ finalFS run = finalFS next).
Proof.
  intros Hctx Hattempt run next. subst run next. simpl. rewrite Hctx, Hattempt.
  pose proof (attempt_provider i (attemptWorld it) fs script) as Hp.
  rewrite Hattempt in Hp. simpl in Hp. rewrite Hp.
  destruct (Z.gtb_spec (uint64_incr errCount) (uploadRetries (provider i))).
  - split; [done|]. lia.
  - split; [lia|done].
Qed.

Lemma uint64_incr_small k : 0 ≤ k < uint64_max → uint64_incr k = k + 1.
Proof. unfold uint64_incr, uint64_max. intros. apply Z.mod_small. lia. Qed.

Lemma uploader_all_fail script n (r : nat) :
  ∀ its i fs k,
    uploadRetries (provider i) = n → 0 ≤ k → k + Z.of_nat r = n → n < uint64_max →
    (r + 1 ≤ length its)%nat →
    Forall (λ it, ctxErr it = None) (take (r + 1) its) →
    Forall is_Some (take (r + 1) (attemptErrors i script its fs)) →
    let run := uploader i script k its fs in
    attempts run = take (r + 1) (attemptErrors i script its fs)
    ∧ sleeps run = replicate r (uploadRetrySleep (provider i))
    ∧ ∃ err, last (attempts run) = Some (Some err)
             ∧ uploadResult run = Returns (Some err).
Proof.
  induction r as [|r IH]; intros its i fs k Hn Hk Hsum Hmax Hlen Hctx Hfail;
    (destruct its as [|it its]; [simpl in Hlen; lia|]);
    simpl in Hctx, Hfail |- *;
    pose proof (attempt_provider i (attemptWorld it) fs script) as Hp;
    destruct (uploadScriptAttempt i (attemptWorld it) fs script)
      as [[i' fs'] oerr] eqn:E; simpl in Hp, Hfail;
    apply Forall_cons in Hctx as [-> Hctx];
    apply Forall_cons in Hfail as [[err ->] Hfail];
    rewrite uint64_incr_small, Hp, Hn by lia.
  - replace (k + 1 >? n) with true by (symmetry; rewrite Z.gtb_ltb; apply Z.ltb_lt; lia).
    simpl. rewrite take_0. eauto.
  - replace (k + 1 >? n) with false by (symmetry; rewrite Z.gtb_ltb; apply Z.ltb_ge; lia).
    simpl in Hlen.
    destruct (IH its i' fs' (k + 1)) as (Hatt & Hsl & err' & Hlast & Hres);
      [congruence|lia|lia|done|lia|done|done|].
    simpl. rewrite Hatt, Hsl, Hp. split; [done|]. split; [done|].
    exists err'. rewrite <- Hatt. split; [|done].
    rewrite last_cons, Hlast. done.
Qed.

(** C3, amended: for every [n] below the largest [uint64], with
    [UPLOAD_RETRIES = n], a live context and every attempt failing,
    [UploadScript] makes exactly [n + 1] attempts, sleeps [n] times and
    returns the error of the last attempt. *)
Theorem UploadScript_retry_bound n : 0 ≤ n < uint64_max → retryBound n.
Proof.
  intros Hn i its fs script Hretries Hlen Hctx Hfail run.
  destruct (uploader_all_fail script n (Z.to_nat n) its i fs 0)
    as (Hatt & Hsl & Hlast); try done; try lia.
  subst run. unfold UploadScript. split; [done|]. split; [|done].
  rewrite Hatt, length_take.
  assert (length (attemptErrors i script its fs) = length its) as ->; [|lia].
  clear. revert i fs. induction its as [|it its IH]; intros i fs; simpl; [done|].
  destruct (uploadScriptAttempt i (attemptWorld it) fs script) as [[i' fs'] e].
  simpl. by rewrite IH.
Qed.

End UploadFacts.

(** *** The upload on the sample guest *)

Section UploadExamples.

Lemma dialFails_attempt i fs script :
  uploadScriptAttempt i dialFails fs script
  = (set_instance i bootedInstance, fs, Some refused).
Proof. reflexivity. Qed.

Lemma attemptErrors_dialFails script m :
  ∀ i fs, attemptErrors i script (replicate m (live dialFails)) fs
          = replicate m (Some refused).
Proof.
  induction m as [|m IH]; intros i fs; [done|].
  change (replicate (S m) (live dialFails))
    with (live dialFails :: replicate m (live dialFails)).
  cbn [attemptErrors attemptWorld live]. rewrite dialFails_attempt.
  by rewrite IH.
Qed.

Lemma uint64_incr_range k : 0 ≤ uint64_incr k ≤ uint64_max.
Proof.
  unfold uint64_incr, uint64_max.
  pose proof (Z.mod_pos_bound (k + 1) (2 ^ 64)). lia.
Qed.

(** With the largest [uint64] as [UPLOAD_RETRIES] the counter never
    exceeds the bound: however many attempts fail, nothing is sent. *)
Lemma uploader_never_surfaces script m :
  ∀ i fs k,
    uploadRetries (provider i) = uint64_max →
    uploadResult (uploader i script k (replicate m (live dialFails)) fs) = Blocks.
Proof.
  induction m as [|m IH]; intros i fs k Hmax; [done|].
  change (replicate (S m) (live dialFails))
    with (live dialFails :: replicate m (live dialFails)).
  cbn [uploader ctxErr attemptWorld live]. rewrite dialFails_attempt.
  cbn [provider set_instance]. rewrite Hmax.
  replace (uint64_incr k >? uint64_max) with false.
  - cbn [uploadResult]. by apply IH.
  - symmetry. rewrite Z.gtb_ltb. apply Z.ltb_ge. apply uint64_incr_range.
Qed.

(** C3 as stated fails for [UPLOAD_RETRIES = 18446744073709551615]:
    after [n + 1] failed attempts the error is not returned. *)
Lemma retry_bound_fails_at_max : ¬ retryBound uint64_max.
Proof.
  intros H.
  specialize (H (sampleInstance uint64_max)
                (replicate (Z.to_nat uint64_max + 1) (live dialFails)) ∅ "echo" eq_refl).
  remember (Z.to_nat uint64_max + 1)%nat as m eqn:Hm. clear Hm.
  rewrite length_replicate, attemptErrors_dialFails in H.
  rewrite !firstn_all2 in H by (rewrite length_replicate; lia).
  destruct H as (_ & _ & _ & err & _ & Hres).
  - lia.
  - by apply Forall_replicate.
  - apply Forall_replicate. by eexists.
  - unfold UploadScript in Hres. rewrite uploader_never_surfaces in Hres; done.
Qed.

Example UploadScript_three_retries :
  attempts (UploadScript (sampleInstance 3) (replicate 9 (live dialFails)) ∅ "echo")
  = replicate 4 (Some refused)
  ∧ sleeps (UploadScript (sampleInstance 3) (replicate 9 (live dialFails)) ∅ "echo")
    = replicate 3 (5 * second)
  ∧ uploadResult (UploadScript (sampleInstance 3) (replicate 9 (live dialFails)) ∅ "echo")
    = Returns (Some refused).
Proof. repeat split; vm_compute; reflexivity. Qed.

Example UploadScript_retry_then_success :
  attempts (UploadScript (sampleInstance 2)
              [live createFails; live createFails; live smoothAttempt] ∅ "echo")
  = [Some (LibError "sftp" "permission denied");
     Some (LibError "sftp" "permission denied"); None]
  ∧ finalFS (UploadScript (sampleInstance 2)
               [live createFails; live createFails; live smoothAttempt] ∅ "echo")
    = {[ "build.sh" := "echo" ]}.
Proof. split; vm_compute; reflexivity. Qed.

End UploadExamples.

Lemma UploadScript_retry_bound_witness :
  length (attempts (UploadScript (sampleInstance 3) (replicate 4 (live dialFails))
                                 ∅ "echo")) = 4%nat.
Proof.
  assert (0 ≤ 3 < uint64_max) as Hn by (unfold uint64_max; lia).
  destruct (UploadScript_retry_bound 3 Hn (sampleInstance 3)
              (replicate 4 (live dialFails)) ∅ "echo" eq_refl)
    as (_ & Hlen & _).
  - simpl. lia.
  - repeat constructor.
  - vm_compute. repeat constructor; by eexists.
  - exact Hlen.
Defined.

(** C2 as stated fails: on a guest that already holds [build.sh], with
    [UPLOAD_RETRIES = 1], the first attempt returns [ErrStaleVM], the
    uploader sleeps and makes a second attempt, and only then is
    [ErrStaleVM] returned. *)
Lemma UploadScript_retries_stale :
  (uploadScriptAttempt (sampleInstance 1) smoothAttempt usedGuest "echo new").2
  = Some ErrStaleVM
  ∧ attempts (UploadScript (sampleInstance 1) [live smoothAttempt; live smoothAttempt]
                           usedGuest "echo new")
    = [Some ErrStaleVM; Some ErrStaleVM]
  ∧ sleeps (UploadScript (sampleInstance 1) [live smoothAttempt; live smoothAttempt]
                         usedGuest "echo new")
    = [5 * second]
  ∧ uploadResult (UploadScript (sampleInstance 1) [live smoothAttempt; live smoothAttempt]
                               usedGuest "echo new")
    = Returns (Some ErrStaleVM).
Proof. repeat split; vm_compute; reflexivity. Qed.

Lemma uploader_counts_every_error_witness :
  attempts (uploader (sampleInstance 1) "echo new" 0
                     [live smoothAttempt; live smoothAttempt] usedGuest)
  = Some ErrStaleVM
    :: attempts (uploader (set_instance (sampleInstance 1) bootedInstance) "echo new"
                          (uint64_incr 0) [live smoothAttempt] usedGuest).
Proof.
  assert (uploadScriptAttempt (sampleInstance 1) (attemptWorld (live smoothAttempt))
                              usedGuest "echo new"
          = (set_instance (sampleInstance 1) bootedInstance, usedGuest, Some ErrStaleVM))
    as Hattempt by (vm_compute; reflexivity).
  destruct (uploader_counts_every_error (sampleInstance 1) (live smoothAttempt)
              [live smoothAttempt] usedGuest "echo new" 0 _ _ _ eq_refl Hattempt)
    as [_ Hretry].
  destruct Hretry as (_ & Hattempts & _).
  - vm_compute. discriminate.
  - exact Hattempts.
Defined.

(** C9 as stated fails: the attempt after the partial write cannot
    connect, and returns the dial error instead of [ErrStaleVM]. *)
Lemma retry_after_partial_write_not_stale :
  createsThenWriteFails (sampleInstance 10) writeFails ∅ = true
  ∧ attempts (UploadScript (sampleInstance 10)
                [live writeFails; live dialFails; live smoothAttempt] ∅ "echo new")
    = [Some (LibError "sftp" "connection lost");
       Some (LibError "ssh" "connection refused");
       Some ErrStaleVM]
  ∧ finalFS (UploadScript (sampleInstance 10)
               [live writeFails; live dialFails; live smoothAttempt] ∅ "echo new")
    = {[ "build.sh" := "ech" ]}.
Proof. repeat split; vm_compute; reflexivity. Qed.

Lemma stale_after_partial_write_witness :
  is_Some ((uploadScriptAttempt (sampleInstance 10) writeFails ∅ "echo new").1.2
             !! "build.sh").
Proof.
  assert (createsThenWriteFails (sampleInstance 10) writeFails ∅ = true) as Hpartial
    by (vm_compute; reflexivity).
  destruct (stale_after_partial_write (sampleInstance 10) writeFails ∅ "echo new" Hpartial)
    as (_ & Hfile & _).
  exact Hfile.
Defined.

(** ** Running the script *)

(** C7: [RunScript] returns [{Completed: true, ExitCode: 0}] and no error
    when [bash ~/build.sh] ran without error, [{Completed: true}] with the
    exit status as [uint8] and no error when it ended with a remote exit
    error, and [{Completed: false}] with the error in every other case:
    a failed dial, session, PTY request or run. *)
Theorem RunScript_outcome (i : gceInstance) (w : RunWorld) :
  (∀ err, snd (sshClient i (rRefresh w) (rDial w)) = Some err →
          RunScript i w = ({| Completed := false; ExitCode := 0 |}, Some err))
  ∧ (snd (sshClient i (rRefresh w) (rDial w)) = None →
     (∀ err, rNewSession w = Some err →
             RunScript i w = ({| Completed := false; ExitCode := 0 |}, Some err))
     ∧ (rNewSession w = None →
        (∀ err, rRequestPty w = Some err →
                RunScript i w = ({| Completed := false; ExitCode := 0 |}, Some err))
        ∧ (rRequestPty w = None →
           (rRun w = None →
            RunScript i w = ({| Completed := true; ExitCode := 0 |}, None))
           ∧ (∀ status, rRun w = Some (ExitError status) →
                        RunScript i w
                        = ({| Completed := true; ExitCode := status mod 256 |}, None))
           ∧ (∀ err, rRun w = Some err → isExitError err = false →
                     RunScript i w
                     = ({| Completed := false; ExitCode := 0 |}, Some err))))).
Proof.
  unfold RunScript.
  destruct (sshClient i (rRefresh w) (rDial w)) as [i' [e|]]; simpl.
  { split; [by intros ? [= <-]|done]. }
  split; [done|]. intros _.
  destruct (rNewSession w) as [e|].
  { split; [by intros ? [= <-]|done]. }
  split; [done|]. intros _.
  destruct (rRequestPty w) as [e|].
  { split; [by intros ? [= <-]|done]. }
  split; [done|]. intros _.
  split; [by intros ->|]. split.
  - by intros status ->.
  - intros err -> Hother. by destruct err.
Qed.

Lemma RunScript_outcome_witness :
  RunScript (sampleInstance 10) (exitsWith 7)
  = ({| Completed := true; ExitCode := 7 |}, None)
  ∧ RunScript (sampleInstance 10) unreachable
    = ({| Completed := false; ExitCode := 0 |}, Some (LibError "ssh" "connection refused")).
Proof.
  split.
  - destruct (RunScript_outcome (sampleInstance 10) (exitsWith 7)) as [_ H].
    destruct (H eq_refl) as [_ H1]. destruct (H1 eq_refl) as [_ H2].
    destruct (H2 eq_refl) as (_ & Hexit & _). exact (Hexit 7 eq_refl).
  - destruct (RunScript_outcome (sampleInstance 10) unreachable) as [H _].
    exact (H _ eq_refl).
Defined.

Example RunScript_exit_status_wraps :
  RunScript (sampleInstance 10) (exitsWith 263)
  = ({| Completed := true; ExitCode := 7 |}, None).
Proof. reflexivity. Qed.

(** ** Stopping an instance *)

Section PollerFacts.

Lemma stopPoller_pending answer rest :
  pending answer = true →
  stopPoller (answer :: rest) = (fst (stopPoller rest), S (snd (stopPoller rest))).
Proof.
  destruct answer as [newOp|e]; simpl; [|done]. intros Hp.
  destruct (String.eqb (Status newOp) "DONE"); [done|].
  by destruct (stopPoller rest).
Qed.

Lemma stopPoller_verdict answer rest :
  pending answer = false → stopPoller (answer :: rest) = (verdict answer, 0%nat).
Proof.
  destruct answer as [newOp|e]; simpl; [|done]. intros Hp.
  destruct (String.eqb (Status newOp) "DONE"); [|done].
  by destruct (opError newOp).
Qed.

Lemma stopPoller_all_pending answers :
  Forall (λ a, pending a = true) answers →
  stopPoller answers = (StillPolling, length answers).
Proof.
  induction 1 as [|answer rest Hp _ IH]; [done|].
  by rewrite (stopPoller_pending _ _ Hp), IH.
Qed.

Lemma stopPoller_first_verdict pre answer post :
  Forall (λ a, pending a = true) pre → pending answer = false →
  stopPoller (pre ++ answer :: post) = (verdict answer, length pre).
Proof.
  intros Hpre Hans. induction Hpre as [|a pre Hp _ IH]; simpl app.
  - by apply stopPoller_verdict.
  - by rewrite (stopPoller_pending _ _ Hp), IH.
Qed.

Lemma stopPoller_blind answers :
  stopPoller (map clearPendingError answers) = stopPoller answers.
Proof.
  induction answers as [|[newOp|e] rest IH]; simpl; [done| |done].
  destruct (String.eqb (Status newOp) "DONE") eqn:E; simpl; rewrite E; [done|].
  by rewrite IH.
Qed.

Lemma startPoller_pending_error newOp oe rest :
  pending (Ok newOp) = true → opError newOp = Some oe →
  startPoller (Ok newOp :: rest) = (SendErr (gceOpError oe), 0%nat).
Proof.
  simpl. intros Hp ->. by destruct (String.eqb (Status newOp) "DONE").
Qed.

(** C10: while the status of the delete operation is not [DONE] the
    poller of [Stop] sleeps [BOOT_POLL_SLEEP] and polls again whatever
    the [Error] payload, where the poller of [Start] sends that payload as
    an error; its result does not depend on the payloads of operations
    that are not done; and [Stop] ends with the context's error, with
    the first transport error, with the payload or nil of the first
    operation that is done, or not at all. *)
Theorem Stop_reads_error_only_when_done (i : gceInstance) (w : StopWorld) :
  (∀ newOp rest,
     Status newOp ≠ "DONE" →
     stopPoller (Ok newOp :: rest) = (fst (stopPoller rest), S (snd (stopPoller rest)))
     ∧ ∀ oe, opError newOp = Some oe →
             startPoller (Ok newOp :: rest) = (SendErr (gceOpError oe), 0%nat))
  ∧ stopPoller (map clearPendingError (deleteAnswers w)) = stopPoller (deleteAnswers w)
  ∧ (∀ op ctxErr, Instances_Delete w (instName (instance i)) = Ok op →
                  ctxWhileStopping w = Some ctxErr →
                  fst (Stop i w) = Returns (Some ctxErr))
  ∧ (∀ op, Instances_Delete w (instName (instance i)) = Ok op →
           ctxWhileStopping w = None →
           (Forall (λ a, pending a = true) (deleteAnswers w) →
            Stop i w = (Blocks, replicate (length (deleteAnswers w))
                                          (bootPollSleep (provider i))))
           ∧ (∀ pre answer post,
                deleteAnswers w = pre ++ answer :: post →
                Forall (λ a, pending a = true) pre → pending answer = false →
                Stop i w
                = (match verdict answer with
                   | SendErr err => Returns (Some err)
                   | SendDone => Returns None
                   | StillPolling => Blocks
                   end,
                   replicate (length pre) (bootPollSleep (provider i))))).
Proof.
  split; [|split; [|split]].
  - intros newOp rest Hstatus.
    assert (pending (Ok newOp) = true) as Hp.
    { simpl. apply negb_true_iff, String.eqb_neq. done. }
    split; [by apply stopPoller_pending|].
    intros oe Hoe. by apply startPoller_pending_error.
  - apply stopPoller_blind.
  - intros op ctxErr Hdel Hctx. unfold Stop. rewrite Hdel, Hctx.
    by destruct (stopPoller (deleteAnswers w)).
  - intros op Hdel Hctx. unfold Stop. rewrite Hdel, Hctx. split.
    + intros Hall. by rewrite (stopPoller_all_pending _ Hall).
    + intros pre answer post -> Hpre Hans.
      rewrite (stopPoller_first_verdict _ _ _ Hpre Hans).
      by destruct (verdict answer).
Qed.

End PollerFacts.

Lemma Stop_reads_error_only_when_done_witness :
  Stop (sampleInstance 10) noisyDelete = (Returns None, [3 * second; 3 * second])
  ∧ startPoller (deleteAnswers noisyDelete) = (SendErr (gceOpError quotaExceeded), 0%nat).
Proof.
  destruct (Stop_reads_error_only_when_done (sampleInstance 10) noisyDelete)
    as (Hstep & _ & _ & Hend).
  split.
  - destruct (Hend _ eq_refl eq_refl) as [_ Hfirst].
    apply (Hfirst [Ok (failedOperation "op-delete" "RUNNING");
                   Ok (operation "op-delete" "RUNNING")]
                  (Ok (operation "op-delete" "DONE")) []).
    + reflexivity.
    + repeat constructor.
    + reflexivity.
  - destruct (Hstep (failedOperation "op-delete" "RUNNING")
                    [Ok (operation "op-delete" "RUNNING");
                     Ok (operation "op-delete" "DONE")]) as [_ Hstart].
    + discriminate.
    + apply (Hstart quotaExceeded). reflexivity.
Defined.

(** ** Starting an instance *)

Section StartFacts.

Context (L : GoLib) (W : Cloud).

Lemma startSelect_abandons p image inst poller ctx :
  match exitResult (startSelect p image inst poller ctx) with
  | Returns (Err _) => abandonedStart (startSelect p image inst poller ctx) = true
  | Returns (Ok _) => abandonedStart (startSelect p image inst poller ctx) = false
  | _ => True
  end
  ∧ is_Some (exitInst (startSelect p image inst poller ctx)).
Proof. unfold startSelect. destruct ctx; [done|]. by destruct poller. Qed.

(** Where [Start] leaves its body with an error: the flag is set, but
    for the return that follows a failed [Instances.Get] on the group
    path. *)
Lemma startBody_abandons p w image inst e :
  exitResult (startBody p w image inst) = Returns (Err e) →
  abandonedStart (startBody p w image inst) = true
  ∨ (instanceGroup p ≠ "" ∧ ctxWhileWaiting w = None
     ∧ fst (startPoller (insertAnswers w)) = SendDone
     ∧ Instances_Get w (instName inst) = Err e
     ∧ abandonedStart (startBody p w image inst) = false).
Proof.
  unfold startBody.
  destruct (String.eqb_spec (instanceGroup p) "") as [Hg|Hg].
  { intros H. left.
    pose proof (startSelect_abandons p image inst (fst (startPoller (insertAnswers w)))
                                     (ctxWhileSelecting w)) as [Hs _].
    by rewrite H in Hs. }
  destruct (ctxWhileWaiting w); [by left|].
  destruct (fst (startPoller (insertAnswers w))); try done.
  destruct (Instances_Get w (instName inst)) as [inst'|err].
  - destruct (InstanceGroups_AddInstances w (instanceGroup p) (instSelfLink inst'));
      [|by left].
    simpl. intros H. left.
    pose proof (startSelect_abandons p image inst' (fst (startPoller (addAnswers w)))
                                     (ctxWhileSelecting w)) as [Hs _].
    by rewrite H in Hs.
  - simpl. intros [= ->]. by right.
Qed.

(** A set flag makes the deferred function issue the delete. *)
Lemma startDeferred_deletes x r inst :
  exitResult x = Returns r → abandonedStart x = true → exitInst x = Some inst →
  startDeferred x = (Returns r, exitEffects x ++ [CallDelete (instName inst)]).
Proof. unfold startDeferred. by intros -> -> ->. Qed.

End StartFacts.

Example Start_delivers :
  Start sampleLib sampleCloud sampleProvider calmWorld (attributesFor "go")
  = (Returns (Ok {| iClient := client sampleProvider; provider := sampleProvider;
                    instance := buildInstance sampleProvider
                                  {| mtSelfLink := "zones/us-central1-a/machineTypes/n1-standard-2" |}
                                  {| nwSelfLink := "global/networks/default" |}
                                  (attributesFor "go") (SelfLink (goImage "02"))
                                  (gceStartupScript (ic sampleProvider)) "4f4a";
                    iIC := ic sampleProvider; authUser := "travis";
                    iProjectID := "travis-ci"; imageName := "travis-ci-go-02" |}),
     [CallInsert "testing-gce-4f4a"; MetricsTimeSince "worker.vm.provider.gce.boot"]).
Proof. vm_compute. reflexivity. Qed.

Example Start_joins_group :
  snd (Start sampleLib sampleCloud (set_instanceGroup sampleProvider "builders")
             calmWorld (attributesFor "go"))
  = [CallInsert "testing-gce-4f4a"; CallInstancesGet "testing-gce-4f4a";
     CallAddInstances "builders" "zones/us-central1-a/instances/testing-gce-4f4a";
     MetricsTimeSince "worker.vm.provider.gce.boot"].
Proof. vm_compute. reflexivity. Qed.

Example Start_abandons_on_operation_error :
  Start sampleLib sampleCloud sampleProvider quotaWorld (attributesFor "go")
  = (Returns (Err (gceOpError quotaExceeded)),
     [CallInsert "testing-gce-4f4a"; CallDelete "testing-gce-4f4a"])
  ∧ gceOpError_Error quotaExceeded
    = "code=QUOTA_EXCEEDED location=zones/us-central1-a message=out of cpus".
Proof. split; vm_compute; reflexivity. Qed.

Example Start_abandons_on_deadline :
  Start sampleLib sampleCloud sampleProvider deadlineWorld (attributesFor "go")
  = (Returns (Err DeadlineExceeded),
     [CallInsert "testing-gce-4f4a"; MetricsMark "worker.vm.provider.gce.boot.timeout";
      CallDelete "testing-gce-4f4a"])
  ∧ Start sampleLib sampleCloud (set_instanceGroup sampleProvider "builders")
          deadlineWorld (attributesFor "go")
    = (Returns (Err DeadlineExceeded),
       [CallInsert "testing-gce-4f4a"; MetricsMark "worker.vm.provider.gce.boot.timeout";
        CallDelete "testing-gce-4f4a"]).
Proof. split; vm_compute; reflexivity. Qed.

(** C1 on the code: with an instance group configured, the insert done
    and the refresh of the instance failing, [Start] returns the error of
    [Instances.Get] with the flag unset; no delete follows the insert. *)
Theorem Start_leaks_on_failed_refresh :
  Start sampleLib sampleCloud (set_instanceGroup sampleProvider "builders")
        refreshFailsWorld (attributesFor "go")
  = (Returns (Err (LibError "googleapi" "503 backend error")),
     [CallInsert "testing-gce-4f4a"; CallInstancesGet "testing-gce-4f4a"])
  ∧ abandonedStart
      (startBody (set_instanceGroup sampleProvider "builders") refreshFailsWorld
                 (goImage "02")
                 (buildInstance sampleProvider
                    {| mtSelfLink := "zones/us-central1-a/machineTypes/n1-standard-2" |}
                    {| nwSelfLink := "global/networks/default" |}
                    (attributesFor "go") (SelfLink (goImage "02"))
                    (gceStartupScript (ic sampleProvider)) "4f4a"))
    = false.
Proof. split; vm_compute; reflexivity. Qed.

(** * Further properties of the backend *)

(** ** The SSH channel *)

Lemma getIP_scan (i : gceInstance) : getIP i = firstNatIP (instance i).
Proof.
  unfold getIP, firstNatIP, natIPs.
  induction (NetworkInterfaces (instance i)) as [|ni nis IH]; [done|].
  cbn [map concat]. rewrite map_app.
  induction (AccessConfigs ni) as [|ac acs IHa]; [exact IH|].
  cbn [map app]. rewrite filter_cons.
  destruct (String.eqb_spec (NatIP ac) "") as [Hempty|Hip]; cbn [negb].
  - rewrite decide_False by (intros H; by apply H). exact IHa.
  - by rewrite decide_True.
Qed.

(** [getIP] returns the first non-empty [NatIP] of the instance record,
    in the order of its interfaces and their access configurations, and
    the empty string when there is none. *)
Theorem getIP_first_address (i : gceInstance) :
  getIP i = default "" (head (filter (λ ip : string, ip ≠ "")
                                (map NatIP (concat (map AccessConfigs
                                                      (NetworkInterfaces (instance i))))))).
Proof. apply getIP_scan. Qed.

(** [sshClient] leaves the handle untouched when the refresh fails;
    otherwise the handle holds the fetched record, and the address is
    taken from that record, never from the one the handle held: without
    an address the error is "no IP address found" whatever the dial would
    do, and with one the dial goes to port 22 of it. *)
Theorem sshClient_outcome (i : gceInstance) (refresh : result Instance)
        (dial : string → option error) :
  (∀ err, refresh = Err err → sshClient i refresh dial = (i, Some err))
  ∧ (∀ inst, refresh = Ok inst →
       fst (sshClient i refresh dial) = set_instance i inst
       ∧ snd (sshClient i refresh dial)
         = if String.eqb (firstNatIP inst) ""
           then Some (Errorf "no IP address found")
           else dial (firstNatIP inst +:+ ":22")).
Proof.
  split.
  - by intros err ->.
  - intros inst ->. unfold sshClient, refreshInstance.
    rewrite (getIP_scan (set_instance i inst)). cbn [instance set_instance].
    by destruct (String.eqb (firstNatIP inst) "").
Qed.

Lemma sshClient_outcome_witness :
  sshClient (sampleInstance 10) (Ok bootedInstance) (λ addr,
    if String.eqb addr "1.2.3.4:22" then None else Some refused)
  = (set_instance (sampleInstance 10) bootedInstance, None).
Proof.
  destruct (sshClient_outcome (sampleInstance 10) (Ok bootedInstance)
              (λ addr, if String.eqb addr "1.2.3.4:22" then None else Some refused))
    as [_ H].
  destruct (H bootedInstance eq_refl) as [Hfst Hsnd].
  rewrite (surjective_pairing (sshClient _ _ _)), Hfst, Hsnd.
  vm_compute. reflexivity.
Defined.

(** ** RunScript *)

(** [RunScript] returns an error exactly when the result says the run
    did not complete; the exit code is a byte, and it is 0 unless the
    remote command ended with an exit error. *)
Theorem RunScript_error_iff_incomplete (i : gceInstance) (w : RunWorld) :
  (Completed (fst (RunScript i w)) = false ↔ is_Some (snd (RunScript i w)))
  ∧ 0 ≤ ExitCode (fst (RunScript i w)) < 256
  ∧ (ExitCode (fst (RunScript i w)) ≠ 0 →
     ∃ status, rRun w = Some (ExitError status)).
Proof.
  unfold RunScript.
  destruct (sshClient i (rRefresh w) (rDial w)) as [i' [e|]]; cbn.
  { split; [split; eauto|]. split; [lia|done]. }
  destruct (rNewSession w) as [e|]; cbn.
  { split; [split; eauto|]. split; [lia|done]. }
  destruct (rRequestPty w) as [e|]; cbn.
  { split; [split; eauto|]. split; [lia|done]. }
  destruct (rRun w) as [e|]; cbn.
  - destruct e; cbn; (split; [split; [done || eauto | done || by intros []]|]);
      (split; [first [lia | unfold uint8; apply Z.mod_pos_bound; lia]|]);
      first [done | eauto].
  - split; [split; [done|by intros []]|]. split; [lia|done].
Qed.

(** ** The pollers *)

Section MorePollerFacts.

Lemma startPoller_quiet answer rest :
  quiet answer = true →
  startPoller (answer :: rest) = (fst (startPoller rest), S (snd (startPoller rest))).
Proof.
  destruct answer as [newOp|e]; simpl; [|done]. intros Hq.
  apply andb_true_iff in Hq as [Hstatus Hpayload].
  apply negb_true_iff in Hstatus. apply bool_decide_eq_true in Hpayload.
  rewrite Hstatus, Hpayload. by destruct (startPoller rest).
Qed.

Lemma startPoller_loud answer rest :
  quiet answer = false → startPoller (answer :: rest) = (verdict answer, 0%nat).
Proof.
  destruct answer as [newOp|e]; simpl; [|done]. intros Hq.
  destruct (String.eqb (Status newOp) "DONE"); simpl in Hq.
  - by destruct (opError newOp).
  - destruct (opError newOp); [done|]. by rewrite bool_decide_eq_true_2 in Hq.
Qed.

(** The poller of [Start] sleeps through the answers that are not done
    and carry no error, one [BOOT_POLL_SLEEP] each, and the first other
    answer decides: a transport error and an error payload (of a finished
    or of a running operation) are sent as errors, a finished operation
    without payload makes the instance ready.  Quiet answers alone leave
    it polling. *)
Theorem startPoller_first_decides (answers : list (result Operation)) :
  (Forall (λ a, quiet a = true) answers →
   startPoller answers = (StillPolling, length answers))
  ∧ (∀ pre answer post,
       answers = pre ++ answer :: post →
       Forall (λ a, quiet a = true) pre → quiet answer = false →
       startPoller answers = (verdict answer, length pre)).
Proof.
  split.
  - induction 1 as [|a rest Hq _ IH]; [done|].
    by rewrite (startPoller_quiet _ _ Hq), IH.
  - intros pre answer post -> Hpre Hloud.
    induction Hpre as [|a pre Hq _ IH]; simpl app.
    + by apply startPoller_loud.
    + by rewrite (startPoller_quiet _ _ Hq), IH.
Qed.

(** The pollers of [Start] and [Stop] agree on every sequence of answers
    in which no operation that is still running carries an error
    payload. *)
Theorem pollers_agree (answers : list (result Operation)) :
  Forall (λ a, pending a = true → quiet a = true) answers →
  startPoller answers = stopPoller answers.
Proof.
  induction 1 as [|a rest Ha _ IH]; [done|].
  destruct (pending a) eqn:Hp.
  - rewrite (startPoller_quiet _ _ (Ha eq_refl)), (stopPoller_pending _ _ Hp).
    by rewrite IH.
  - rewrite (stopPoller_verdict _ _ Hp). apply startPoller_loud.
    destruct a as [newOp|e]; [|done]. simpl in *.
    apply negb_false_iff in Hp. by rewrite Hp.
Qed.

Lemma stopPoller_done answers n :
  stopPoller answers = (SendDone, n) →
  ∃ pre newOp post,
    answers = pre ++ Ok newOp :: post
    ∧ Forall (λ a, pending a = true) pre
    ∧ Status newOp = "DONE" ∧ opError newOp = None ∧ n = length pre.
Proof.
  revert n. induction answers as [|a rest IH]; intros n; [done|].
  destruct (pending a) eqn:Hp.
  - rewrite (stopPoller_pending _ _ Hp). intros [= Hfst <-].
    destruct (IH (snd (stopPoller rest))) as (pre & newOp & post & -> & Hpre & ? & ? & Hn).
    { by destruct (stopPoller rest) as [e k]; simpl in *; subst. }
    exists (a :: pre), newOp, post. repeat split; try done.
    + by constructor.
    + simpl. by rewrite <- Hn.
  - rewrite (stopPoller_verdict _ _ Hp). intros [= Hv <-].
    destruct a as [newOp|e]; [|done]. simpl in Hp, Hv.
    apply negb_false_iff, String.eqb_eq in Hp.
    exists [], newOp, rest. repeat split; try done.
    by destruct (opError newOp).
Qed.

(** [Stop] returns nil only when the delete call succeeded, the context
    did not end the wait, and an answer of the operation had status
    [DONE] and no error payload, every answer before it being of a
    running operation; the poller slept once per such answer. *)
Theorem Stop_nil_means_done (i : gceInstance) (w : StopWorld) :
  fst (Stop i w) = Returns None →
  is_Err (Instances_Delete w (instName (instance i))) = false
  ∧ ctxWhileStopping w = None
  ∧ ∃ pre newOp post,
      deleteAnswers w = pre ++ Ok newOp :: post
      ∧ Forall (λ a, pending a = true) pre
      ∧ Status newOp = "DONE" ∧ opError newOp = None
      ∧ snd (Stop i w) = replicate (length pre) (bootPollSleep (provider i)).
Proof.
  unfold Stop.
  destruct (Instances_Delete w (instName (instance i))) as [op|e]; [|done].
  destruct (stopPoller (deleteAnswers w)) as [poller n] eqn:Hpoll.
  destruct (ctxWhileStopping w); [done|].
  destruct poller; try done. intros _.
  destruct (stopPoller_done _ _ Hpoll) as (pre & newOp & post & ? & ? & ? & ? & ->).
  split; [done|]. split; [done|]. by exists pre, newOp, post.
Qed.

End MorePollerFacts.

Lemma pollers_agree_witness :
  startPoller [Ok (operation "op" "PENDING"); Ok (operation "op" "RUNNING");
               Ok (failedOperation "op" "DONE")]
  = stopPoller [Ok (operation "op" "PENDING"); Ok (operation "op" "RUNNING");
                Ok (failedOperation "op" "DONE")].
Proof.
  apply pollers_agree. repeat constructor; intros; try reflexivity; discriminate.
Defined.

Lemma Stop_nil_means_done_witness :
  ctxWhileStopping noisyDelete = None
  ∧ ∃ pre newOp post,
      deleteAnswers noisyDelete = pre ++ Ok newOp :: post
      ∧ Forall (λ a, pending a = true) pre
      ∧ Status newOp = "DONE" ∧ opError newOp = None
      ∧ snd (Stop (sampleInstance 10) noisyDelete)
        = replicate (length pre) (bootPollSleep (provider (sampleInstance 10))).
Proof.
  assert (fst (Stop (sampleInstance 10) noisyDelete) = Returns None) as H
    by (vm_compute; reflexivity).
  exact (proj2 (Stop_nil_means_done (sampleInstance 10) noisyDelete H)).
Defined.

(** ** UploadScript and the guest's files *)

Section MoreUploadFacts.

Implicit Types (i : gceInstance) (a : AttemptWorld) (fs : RemoteFS)
         (its : list UploadIteration) (script : string).

Lemma attempt_cases i a fs script :
  ((uploadScriptAttempt i a fs script).2 = None →
   (uploadScriptAttempt i a fs script).1.2 !! "build.sh" = Some script)
  ∧ (∀ path, path ≠ "build.sh" →
       (uploadScriptAttempt i a fs script).1.2 !! path = fs !! path)
  ∧ (is_Some (fs !! "build.sh") → aLstat a = None →
     (uploadScriptAttempt i a fs script).1.2 = fs
     ∧ is_Some (uploadScriptAttempt i a fs script).2).
Proof.
  unfold uploadScriptAttempt.
  destruct (sshClient i (aRefresh a) (aDial a)) as [i' [e|]]; cbn.
  { split; [done|]. split; [done|]. eauto. }
  destruct (aNewClient a) as [e|]; cbn.
  { split; [done|]. split; [done|]. eauto. }
  destruct (aLstat a) as [e|] eqn:Hlstat; [|destruct (fs !! "build.sh") eqn:Hfile]; cbn.
  2:{ split; [done|]. split; [done|]. eauto. }
  all: destruct (aCreate a) as [e'|]; cbn;
    [split; [done|]; split; [done|]; by intros [] | ].
  all: destruct (aWrite a) as [[n e']|]; cbn.
  all: split; [first [done | intros _; by rewrite lookup_insert_eq]|].
  all: split; [intros path Hpath; by rewrite !lookup_insert_ne|].
  all: first [done | by intros []].
Qed.

Lemma uploader_provider its :
  ∀ i fs script errCount,
    Forall (λ d, d = uploadRetrySleep (provider i))
           (sleeps (uploader i script errCount its fs)).
Proof.
  induction its as [|it its IH]; intros i fs script errCount; cbn; [done|].
  destruct (ctxErr it); [done|].
  pose proof (attempt_provider i (attemptWorld it) fs script) as Hp.
  destruct (uploadScriptAttempt i (attemptWorld it) fs script) as [[i' fs'] [err|]];
    cbn in *; [|done].
  destruct (uint64_incr errCount >? uploadRetries (provider i')); cbn; [done|].
  constructor; [by rewrite Hp|]. rewrite <- Hp. apply IH.
Qed.

(** When [UploadScript] returns nil, [build.sh] on the guest holds exactly
    the script, the attempt that wrote it was the last one made, every
    attempt before it failed, and one [UPLOAD_RETRY_SLEEP] was slept after
    each failure. *)
Theorem UploadScript_nil_means_uploaded i its fs script :
  uploadResult (UploadScript i its fs script) = Returns None →
  finalFS (UploadScript i its fs script) !! "build.sh" = Some script
  ∧ ∃ errs : list error,
      attempts (UploadScript i its fs script) = map Some errs ++ [None]
      ∧ sleeps (UploadScript i its fs script)
        = replicate (length errs) (uploadRetrySleep (provider i)).
Proof.
  unfold UploadScript. generalize 0 as errCount.
  revert i fs. induction its as [|it its IH]; intros i fs errCount; cbn; [done|].
  destruct (ctxErr it); [done|].
  pose proof (attempt_provider i (attemptWorld it) fs script) as Hp.
  pose proof (attempt_cases i (attemptWorld it) fs script) as (Hok & _ & _).
  destruct (uploadScriptAttempt i (attemptWorld it) fs script) as [[i' fs'] [err|]];
    cbn in *.
  - destruct (uint64_incr errCount >? uploadRetries (provider i')); cbn; [done|].
    intros Hres. destruct (IH _ _ _ Hres) as (Hfile & errs & Hatt & Hsl).
    split; [done|]. exists (err :: errs). cbn. by rewrite Hatt, Hsl, Hp.
  - intros _. split; [by apply Hok|]. by exists [].
Qed.

(** [UploadScript] touches no file of the guest but [build.sh]. *)
Theorem UploadScript_other_files_untouched i its fs script path :
  path ≠ "build.sh" →
  finalFS (UploadScript i its fs script) !! path = fs !! path.
Proof.
  intros Hpath. unfold UploadScript. generalize 0 as errCount.
  revert i fs. induction its as [|it its IH]; intros i fs errCount; cbn; [done|].
  destruct (ctxErr it); [done|].
  pose proof (attempt_cases i (attemptWorld it) fs script) as (_ & Hother & _).
  specialize (Hother path Hpath).
  destruct (uploadScriptAttempt i (attemptWorld it) fs script) as [[i' fs'] [err|]];
    cbn in *; [|done].
  destruct (uint64_incr errCount >? uploadRetries (provider i')); cbn; [done|].
  by rewrite IH.
Qed.

(** On a guest that already holds [build.sh], as long as every [Lstat]
    request is answered, [UploadScript] writes nothing (the earlier
    script stays as it is) and never returns nil: every attempt fails. *)
Theorem UploadScript_never_overwrites i its fs script :
  is_Some (fs !! "build.sh") →
  Forall (λ it, aLstat (attemptWorld it) = None) its →
  finalFS (UploadScript i its fs script) = fs
  ∧ uploadResult (UploadScript i its fs script) ≠ Returns None
  ∧ Forall is_Some (attempts (UploadScript i its fs script)).
Proof.
  intros Hfile Hlstat. unfold UploadScript. generalize 0 as errCount.
  revert i. induction Hlstat as [|it its Hit _ IH]; intros i errCount; cbn; [done|].
  destruct (ctxErr it); [done|].
  pose proof (attempt_cases i (attemptWorld it) fs script) as (_ & _ & Hstale).
  destruct (Hstale Hfile Hit) as [Hsame Herr].
  destruct (uploadScriptAttempt i (attemptWorld it) fs script) as [[i' fs'] oerr];
    cbn in *. subst fs'. destruct Herr as [err ->].
  destruct (uint64_incr errCount >? uploadRetries (provider i')); cbn.
  - split; [done|]. split; [done|]. by repeat constructor.
  - destruct (IH i' (uint64_incr errCount)) as (? & ? & ?).
    split; [done|]. split; [done|]. by constructor.
Qed.

Lemma uploader_attempts_bound its :
  ∀ i fs script n errCount,
    uploadRetries (provider i) = n → 0 ≤ errCount ≤ n → n < uint64_max →
    (length (attempts (uploader i script errCount its fs))
     ≤ Z.to_nat (n - errCount) + 1)%nat
    ∧ (length (sleeps (uploader i script errCount its fs))
       ≤ Z.to_nat (n - errCount))%nat.
Proof.
  induction its as [|it its IH]; intros i fs script n errCount Hn Hk Hmax; cbn;
    [lia|].
  destruct (ctxErr it); cbn; [lia|].
  pose proof (attempt_provider i (attemptWorld it) fs script) as Hp.
  destruct (uploadScriptAttempt i (attemptWorld it) fs script) as [[i' fs'] [err|]];
    cbn in *; [|lia].
  rewrite uint64_incr_small, Hp, Hn by lia.
  destruct (Z.gtb_spec (errCount + 1) n); cbn; [lia|].
  destruct (IH i' fs' script n (errCount + 1)) as [Ha Hs]; [congruence|lia|lia|].
  lia.
Qed.

(** With [UPLOAD_RETRIES = n] below the largest [uint64], [UploadScript]
    never makes more than [n + 1] attempts nor sleeps more than [n]
    times, whatever the attempts do, and every sleep is
    [UPLOAD_RETRY_SLEEP]. *)
Theorem UploadScript_attempts_bounded i its fs script n :
  uploadRetries (provider i) = n → 0 ≤ n < uint64_max →
  (length (attempts (UploadScript i its fs script)) ≤ Z.to_nat n + 1)%nat
  ∧ (length (sleeps (UploadScript i its fs script)) ≤ Z.to_nat n)%nat
  ∧ Forall (λ d, d = uploadRetrySleep (provider i))
           (sleeps (UploadScript i its fs script)).
Proof.
  intros Hn Hrange. unfold UploadScript.
  destruct (uploader_attempts_bound its i fs script n 0) as [Ha Hs]; try done; try lia.
  rewrite Z.sub_0_r in Ha, Hs. split; [done|]. split; [done|].
  apply uploader_provider.
Qed.

Lemma uploader_fail_then_succeed script n :
  ∀ (errs : list error) its i fs errCount,
    uploadRetries (provider i) = n → 0 ≤ errCount →
    errCount + Z.of_nat (length errs) ≤ n → n ≤ uint64_max →
    Forall (λ it, ctxErr it = None) (take (length errs + 1) its) →
    take (length errs + 1) (attemptErrors i script its fs) = map Some errs ++ [None] →
    uploadResult (uploader i script errCount its fs) = Returns None
    ∧ attempts (uploader i script errCount its fs) = map Some errs ++ [None]
    ∧ sleeps (uploader i script errCount its fs)
      = replicate (length errs) (uploadRetrySleep (provider i)).
Proof.
  induction errs as [|err errs IH]; intros its i fs errCount Hn Hk Hsum Hmax Hctx Hatt;
    (destruct its as [|it its]; [done|]); cbn in Hctx, Hatt |- *;
    pose proof (attempt_provider i (attemptWorld it) fs script) as Hp;
    destruct (uploadScriptAttempt i (attemptWorld it) fs script)
      as [[i' fs'] oerr] eqn:E; cbn in Hp, Hatt;
    apply Forall_cons in Hctx as [-> Hctx].
  - by injection Hatt as ->.
  - injection Hatt as -> Hatt. cbn in Hsum. rewrite uint64_incr_small, Hp, Hn by (unfold uint64_max in *; lia).
    replace (errCount + 1 >? n) with false
      by (symmetry; rewrite Z.gtb_ltb; apply Z.ltb_ge; lia).
    destruct (IH its i' fs' (errCount + 1)) as (Hres & Ha & Hs);
      [congruence|lia|lia|done|done|done|].
    cbn. by rewrite Hres, Ha, Hs, Hp.
Qed.

(** When the first [k] attempts fail and the next one succeeds, with
    [k] no larger than [UPLOAD_RETRIES] and a live context,
    [UploadScript] returns nil after exactly [k + 1] attempts and [k]
    sleeps. *)
Theorem UploadScript_succeeds_after_failures i its fs script (errs : list error) :
  0 ≤ uploadRetries (provider i) ≤ uint64_max →
  Z.of_nat (length errs) ≤ uploadRetries (provider i) →
  Forall (λ it, ctxErr it = None) (take (length errs + 1) its) →
  take (length errs + 1) (attemptErrors i script its fs) = map Some errs ++ [None] →
  uploadResult (UploadScript i its fs script) = Returns None
  ∧ attempts (UploadScript i its fs script) = map Some errs ++ [None]
  ∧ sleeps (UploadScript i its fs script)
    = replicate (length errs) (uploadRetrySleep (provider i)).
Proof.
  intros Hrange Hk Hctx Hatt. unfold UploadScript.
  apply (uploader_fail_then_succeed script (uploadRetries (provider i))); try done; lia.
Qed.

End MoreUploadFacts.

Lemma UploadScript_nil_means_uploaded_witness :
  finalFS (UploadScript (sampleInstance 2)
             [live createFails; live createFails; live smoothAttempt] ∅ "echo")
    !! "build.sh" = Some "echo".
Proof.
  apply UploadScript_nil_means_uploaded. vm_compute. reflexivity.
Defined.

Lemma UploadScript_other_files_untouched_witness :
  finalFS (UploadScript (sampleInstance 2) [live writeFails; live smoothAttempt]
                        {[ ".bashrc" := "umask 022" ]} "echo")
    !! ".bashrc" = Some "umask 022".
Proof.
  rewrite UploadScript_other_files_untouched by discriminate. reflexivity.
Defined.

Lemma UploadScript_never_overwrites_witness :
  finalFS (UploadScript (sampleInstance 2)
             [live smoothAttempt; live dialFails; live smoothAttempt] usedGuest "echo new")
  = usedGuest.
Proof.
  apply UploadScript_never_overwrites.
  - by eexists.
  - repeat constructor.
Defined.

Lemma UploadScript_attempts_bounded_witness :
  (length (attempts (UploadScript (sampleInstance 2) (replicate 7 (live dialFails))
                                  ∅ "echo")) ≤ 3)%nat.
Proof.
  assert (0 ≤ 2 < uint64_max) as Hn by (unfold uint64_max; lia).
  exact (proj1 (UploadScript_attempts_bounded (sampleInstance 2)
                  (replicate 7 (live dialFails)) ∅ "echo" 2 eq_refl Hn)).
Defined.

Lemma UploadScript_succeeds_after_failures_witness :
  uploadResult (UploadScript (sampleInstance 2)
                  [live createFails; live createFails; live smoothAttempt] ∅ "echo")
  = Returns None.
Proof.
  apply (UploadScript_succeeds_after_failures (sampleInstance 2) _ ∅ "echo"
           [LibError "sftp" "permission denied"; LibError "sftp" "permission denied"]).
  - vm_compute. split; discriminate.
  - vm_compute. discriminate.
  - repeat constructor.
  - vm_compute. reflexivity.
Defined.

(** ** Start and the instances it leaves behind *)

Section MoreStartFacts.

Context (L : GoLib) (W : Cloud).

Lemma errorEq_deadline e : errorEq e DeadlineExceeded = true → e = DeadlineExceeded.
Proof. by destruct e. Qed.

Lemma bootTimeout_cases e :
  (bootTimeout e = [] ∧ e ≠ DeadlineExceeded)
  ∨ (bootTimeout e = [MetricsMark "worker.vm.provider.gce.boot.timeout"]
     ∧ e = DeadlineExceeded).
Proof. destruct e; cbn; auto. Qed.

(** Without an instance group, once [Instances.Insert] has succeeded,
    every error [Start] returns is followed by the delete of the inserted
    instance: the effects are the insert, the timeout mark when the
    context's deadline passed, and the delete. *)
Theorem Start_abandons_without_group p w startAttributes image mt nw zone op :
  getImage L W p startAttributes = Returns (Some image, None) →
  icMachineType (ic p) = Some mt → icNetwork (ic p) = Some nw →
  icZone (ic p) = Some zone →
  Instances_Insert w (buildInstance p mt nw startAttributes (SelfLink image)
                                    (gceStartupScript (ic p)) (uuid_NewRandom w))
  = Ok op →
  instanceGroup p = "" →
  ∀ err effs,
    Start L W p w startAttributes = (Returns (Err err), effs) →
    ∃ mark,
      effs = CallInsert ("testing-gce-" +:+ uuid_NewRandom w)
             :: mark ++ [CallDelete ("testing-gce-" +:+ uuid_NewRandom w)]
      ∧ (mark = []
         ∨ mark = [MetricsMark "worker.vm.provider.gce.boot.timeout"]
           ∧ err = DeadlineExceeded).
Proof.
  intros Himage Hmt Hnw Hzone Hinsert Hgroup err effs.
  unfold Start. rewrite Himage, Hmt, Hnw, Hzone. cbn zeta. rewrite Hinsert.
  unfold startBody. rewrite Hgroup. cbn [String.eqb]. unfold startSelect, startDeferred.
  destruct (ctxWhileSelecting w) as [ctxErr|]; cbn.
  - intros [= <- <-]. exists (bootTimeout ctxErr). split; [done|].
    destruct (bootTimeout_cases ctxErr) as [[-> _]|[-> ->]]; auto.
  - destruct (fst (startPoller (insertAnswers w))); cbn; try done.
    intros [= <- <-]. exists []. auto.
Qed.

(** A handle is returned only on the path that records the boot time:
    the effects end with the boot timer and hold no delete and no timeout
    mark; the handle belongs to the provider, logs in as [travis], and its
    [ID] is the instance's name and the name of the resolved image,
    joined by a colon. *)
Theorem Start_delivers_handle p w startAttributes h effs :
  Start L W p w startAttributes = (Returns (Ok h), effs) →
  ∃ image,
    getImage L W p startAttributes = Returns (Some image, None)
    ∧ provider h = p ∧ authUser h = "travis" ∧ iProjectID h = projectID p
    ∧ ID h = instName (instance h) +:+ ":" +:+ Name image
    ∧ last effs = Some (MetricsTimeSince "worker.vm.provider.gce.boot")
    ∧ Forall (λ e, match e with
                   | CallDelete _ | MetricsMark _ => False
                   | _ => True
                   end) effs.
Proof.
  unfold Start.
  destruct (getImage L W p startAttributes) as [[[image|] [e|]]| |]; try done.
  destruct (icMachineType (ic p)) as [mt|]; [|done].
  destruct (icNetwork (ic p)) as [nw|]; [|done].
  destruct (icZone (ic p)) as [zone|]; [|done].
  cbn zeta. destruct (Instances_Insert w _) as [op|e]; [|done].
  unfold startBody, startSelect, startDeferred, prependEffects.
  destruct (String.eqb (instanceGroup p) "").
  - destruct (ctxWhileSelecting w); cbn; [done|].
    destruct (fst (startPoller (insertAnswers w))); cbn; try done.
    intros [= <- <-]. exists image. repeat split; try done. by repeat constructor.
  - destruct (ctxWhileWaiting w); cbn; [done|].
    destruct (fst (startPoller (insertAnswers w))); cbn; try done.
    destruct (Instances_Get w _) as [inst'|e]; cbn; [|done].
    destruct (InstanceGroups_AddInstances w _ _) as [op'|e]; cbn; [|done].
    destruct (ctxWhileSelecting w); cbn; [done|].
    destruct (fst (startPoller (addAnswers w))); cbn; try done.
    intros [= <- <-]. exists image. repeat split; try done. by repeat constructor.
Qed.

(** The timeout metric is marked at most once, only when [Start] returns
    the context's deadline error, and the delete of the instance follows
    it at once. *)
Theorem Start_marks_timeout_once p w startAttributes r effs :
  Start L W p w startAttributes = (r, effs) →
  MetricsMark "worker.vm.provider.gce.boot.timeout" ∈ effs →
  r = Returns (Err DeadlineExceeded)
  ∧ ∃ calls name,
      effs = calls ++ [MetricsMark "worker.vm.provider.gce.boot.timeout";
                       CallDelete name]
      ∧ Forall (λ e, match e with
                     | CallDelete _ | MetricsMark _ | MetricsTimeSince _ => False
                     | _ => True
                     end) calls.
Proof.
  unfold Start.
  destruct (getImage L W p startAttributes) as [[[image|] [e|]]| |];
    try (intros [= <- <-]; by intros ?%elem_of_nil).
  destruct (icMachineType (ic p)) as [mt|]; [|intros [= <- <-]; by intros ?%elem_of_nil].
  destruct (icNetwork (ic p)) as [nw|]; [|intros [= <- <-]; by intros ?%elem_of_nil].
  destruct (icZone (ic p)) as [zone|]; [|intros [= <- <-]; by intros ?%elem_of_nil].
  cbn zeta. destruct (Instances_Insert w _) as [op|e];
    [|intros [= <- <-]; set_solver].
  unfold startBody, startSelect, startDeferred, prependEffects.
  destruct (String.eqb (instanceGroup p) "").
  - destruct (ctxWhileSelecting w) as [ctxErr|]; cbn.
    + destruct (bootTimeout_cases ctxErr) as [[-> _]|[-> ->]];
        intros [= <- <-]; [set_solver|]. intros _. split; [done|].
      eexists [_], _. split; [done|]. by repeat constructor.
    + destruct (fst (startPoller (insertAnswers w))); cbn;
        intros [= <- <-]; set_solver.
  - destruct (ctxWhileWaiting w) as [ctxErr|]; cbn.
    { destruct (bootTimeout_cases ctxErr) as [[-> _]|[-> ->]];
        intros [= <- <-]; [set_solver|]. intros _. split; [done|].
      eexists [_], _. split; [done|]. by repeat constructor. }
    destruct (fst (startPoller (insertAnswers w))); cbn;
      try (intros [= <- <-]; set_solver).
    destruct (Instances_Get w _) as [inst'|e]; cbn; [|intros [= <- <-]; set_solver].
    destruct (InstanceGroups_AddInstances w _ _) as [op'|e]; cbn;
      [|intros [= <- <-]; set_solver].
    destruct (ctxWhileSelecting w) as [ctxErr|]; cbn.
    + destruct (bootTimeout_cases ctxErr) as [[-> _]|[-> ->]];
        intros [= <- <-]; [set_solver|]. intros _. split; [done|].
      eexists [_; _; _], _. split; [done|]. by repeat constructor.
    + destruct (fst (startPoller (addAnswers w))); cbn;
        intros [= <- <-]; set_solver.
Qed.

End MoreStartFacts.

Lemma Start_abandons_without_group_witness :
  ∃ mark,
    snd (Start sampleLib sampleCloud sampleProvider quotaWorld (attributesFor "go"))
    = CallInsert "testing-gce-4f4a" :: mark ++ [CallDelete "testing-gce-4f4a"].
Proof.
  assert (getImage sampleLib sampleCloud sampleProvider (attributesFor "go")
          = Returns (Some (goImage "02"), None)) as Himage by (vm_compute; reflexivity).
  destruct (Start_abandons_without_group sampleLib sampleCloud sampleProvider quotaWorld
              (attributesFor "go") _ _ _ _ (operation "op-insert" "PENDING")
              Himage eq_refl eq_refl eq_refl eq_refl eq_refl
              (gceOpError quotaExceeded)
              (snd (Start sampleLib sampleCloud sampleProvider quotaWorld
                          (attributesFor "go"))))
    as (mark & Heffs & _).
  - vm_compute. reflexivity.
  - exists mark. exact Heffs.
Defined.

Lemma Start_delivers_handle_witness :
  ∃ h, fst (Start sampleLib sampleCloud (set_instanceGroup sampleProvider "builders")
                  calmWorld (attributesFor "go")) = Returns (Ok h)
       ∧ ID h = "testing-gce-4f4a:travis-ci-go-02".
Proof.
  assert (∃ h effs, Start sampleLib sampleCloud (set_instanceGroup sampleProvider "builders")
                          calmWorld (attributesFor "go") = (Returns (Ok h), effs))
    as (h & effs & Hstart) by (vm_compute; eauto).
  destruct (Start_delivers_handle sampleLib sampleCloud _ _ _ h effs Hstart)
    as (image & Himage & _ & _ & _ & Hid & _).
  exists h. rewrite Hstart. split; [done|].
  rewrite Hid. vm_compute in Himage. injection Himage as <-.
  vm_compute in Hstart. injection Hstart as <- _. reflexivity.
Defined.

Lemma Start_marks_timeout_once_witness :
  fst (Start sampleLib sampleCloud sampleProvider deadlineWorld (attributesFor "go"))
  = Returns (Err DeadlineExceeded).
Proof.
  apply (Start_marks_timeout_once sampleLib sampleCloud sampleProvider deadlineWorld
           (attributesFor "go") _ _ (surjective_pairing _)).
  vm_compute. set_solver.
Defined.

(** ** Construction, once more *)

Section MoreConstructionFacts.

Context (L : GoLib).

Ltac next_step :=
  match goal with
  | |- context [mbind _ ?r] =>
      let E := fresh "E" in destruct r eqn:E; simpl; try done
  | |- context [match ?r with Ok _ => _ | Err _ => _ end] =>
      let E := fresh "E" in destruct r eqn:E; simpl; try done
  | |- context [match ?r with Some _ => _ | None => _ end] =>
      let E := fresh "E" in destruct r eqn:E; simpl; try done
  end.

Lemma keys_projectID c km :
  newGCEProvider_keys L c = Ok km → kmProjectID km = Get c "PROJECT_ID".
Proof.
  unfold newGCEProvider_keys.
  repeat (next_step || (match goal with
                        | |- context [if ?b then _ else _] => destruct b; simpl; try done
                        end)).
  by intros [= <-].
Qed.

(** Each of [ACCOUNT_JSON], [PROJECT_ID], [SSH_KEY_PATH],
    [SSH_PUB_KEY_PATH] and [SSH_KEY_PASSPHRASE] is required: without it
    construction fails and leaves the mapping as it found it; a missing
    [ACCOUNT_JSON] is reported before anything else is looked at. *)
Theorem newGCEProvider_required_keys c key :
  key ∈ ["ACCOUNT_JSON"; "PROJECT_ID"; "SSH_KEY_PATH"; "SSH_PUB_KEY_PATH";
         "SSH_KEY_PASSPHRASE"] →
  IsSet c key = false →
  is_Err (snd (newGCEProvider L c)) = true
  ∧ fst (newGCEProvider L c) = c
  ∧ (key = "ACCOUNT_JSON" →
     snd (newGCEProvider L c) = Err (Errorf "missing ACCOUNT_JSON")).
Proof.
  intros Hkey Hunset.
  assert (is_Err (newGCEProvider_keys L c) = true
          ∧ (key = "ACCOUNT_JSON" →
             newGCEProvider_keys L c = Err (Errorf "missing ACCOUNT_JSON"))) as [Hfail Hjson].
  { unfold newGCEProvider_keys, buildGoogleComputeService.
    repeat (apply elem_of_cons in Hkey as [->|Hkey]); [..|by apply elem_of_nil in Hkey];
      rewrite ?Hunset; simpl; (split; [|done]);
      repeat (next_step || (match goal with
                            | |- context [if ?b then _ else _] =>
                                destruct b; simpl; try done
                            end)); try done. }
  unfold newGCEProvider.
  destruct (newGCEProvider_keys L c) as [km|e]; [done|].
  split; [done|]. split; [done|]. intros Hk. by injection (Hjson Hk) as ->.
Qed.

Lemma keys_writeBack c :
  newGCEProvider_keys L (newGCEProvider_writeBack c) = newGCEProvider_keys L c.
Proof.
  unfold newGCEProvider_keys, buildGoogleComputeService.
  by rewrite !writeBack_IsSet, !writeBack_Get.
Qed.

Lemma writeBack_writeBack c :
  newGCEProvider_writeBack (newGCEProvider_writeBack c) = newGCEProvider_writeBack c.
Proof.
  unfold newGCEProvider_writeBack at 1.
  set (c' := newGCEProvider_writeBack c).
  assert (IsSet c' "ZONE" = true ∧ IsSet c' "MACHINE_TYPE" = true
          ∧ IsSet c' "NETWORK" = true) as (Hz & Hm & Hn).
  { subst c'. unfold newGCEProvider_writeBack. by other_key. }
  rewrite Hz. other_key. rewrite Hm. other_key. rewrite Hn.
  unfold Set_, Get. apply map_eq. intros k.
  unfold IsSet in Hz, Hm, Hn. apply bool_decide_eq_true in Hz, Hm, Hn.
  destruct Hz as [z Hz], Hm as [m Hm], Hn as [n Hn]. rewrite Hz, Hm, Hn. simpl.
  destruct (decide (k = "NETWORK")) as [->|]; [by rewrite lookup_insert_eq|].
  rewrite lookup_insert_ne by done.
  destruct (decide (k = "MACHINE_TYPE")) as [->|]; [by rewrite lookup_insert_eq|].
  rewrite lookup_insert_ne by done.
  destruct (decide (k = "ZONE")) as [->|]; [by rewrite lookup_insert_eq|].
  by rewrite lookup_insert_ne.
Qed.

(** Construction is idempotent on the mapping: run again on the mapping a
    first construction left behind, it leaves the same mapping and ends
    the same way. *)
Theorem newGCEProvider_idempotent c :
  newGCEProvider L (fst (newGCEProvider L c)) = newGCEProvider L c.
Proof.
  unfold newGCEProvider at 2 3.
  destruct (newGCEProvider_keys L c) as [km|e] eqn:Hkeys; simpl.
  - unfold newGCEProvider. by rewrite keys_writeBack, Hkeys, writeBack_writeBack.
  - unfold newGCEProvider. by rewrite Hkeys.
Qed.

(** Construction changes no option of the mapping but [ZONE],
    [MACHINE_TYPE] and [NETWORK], whether it succeeds or fails. *)
Theorem newGCEProvider_keeps_other_options c key :
  key ∉ ["ZONE"; "MACHINE_TYPE"; "NETWORK"] →
  fst (newGCEProvider L c) !! key = c !! key.
Proof.
  intros Hkey. unfold newGCEProvider.
  destruct (newGCEProvider_keys L c); [|done]. simpl.
  unfold newGCEProvider_writeBack, Set_.
  rewrite !lookup_insert_ne; [done|set_solver..].
Qed.

(** A provider that construction returns holds, for every optional
    option, the value its parser read when the option is set and the
    default when it is not; its project and instance group are the
    values of [PROJECT_ID] and [INSTANCE_GROUP]. *)
Theorem newGCEProvider_resolved_options c p :
  snd (newGCEProvider L c) = Ok p →
  (if IsSet c "BOOT_POLL_SLEEP"
   then time_ParseDuration L (Get c "BOOT_POLL_SLEEP") = Ok (bootPollSleep p)
   else bootPollSleep p = 3 * second)
  ∧ (if IsSet c "UPLOAD_RETRIES"
     then strconv_ParseUint L (Get c "UPLOAD_RETRIES") = Ok (uploadRetries p)
     else uploadRetries p = 10)
  ∧ (if IsSet c "UPLOAD_RETRY_SLEEP"
     then time_ParseDuration L (Get c "UPLOAD_RETRY_SLEEP") = Ok (uploadRetrySleep p)
     else uploadRetrySleep p = 5 * second)
  ∧ (if IsSet c "AUTO_IMPLODE"
     then strconv_ParseBool L (Get c "AUTO_IMPLODE") = Ok (AutoImplode (ic p))
     else AutoImplode (ic p) = true)
  ∧ (if IsSet c "HARD_TIMEOUT_MINUTES"
     then strconv_ParseInt L (Get c "HARD_TIMEOUT_MINUTES")
          = Ok (HardTimeoutMinutes (ic p))
     else HardTimeoutMinutes (ic p) = 130)
  ∧ (∀ ds, IsSet c "DISK_SIZE" = true →
           strconv_ParseInt L (Get c "DISK_SIZE") = Ok ds → DiskSize (ic p) = ds)
  ∧ (IsSet c "DISK_SIZE" = false → DiskSize (ic p) = 20)
  ∧ defaultLanguage p
    = (if IsSet c "DEFAULT_LANGUAGE" then Get c "DEFAULT_LANGUAGE" else "minimal")
  ∧ defaultImage p
    = (if IsSet c "IMAGE_DEFAULT" then Get c "IMAGE_DEFAULT" else "travis-ci-mega.+")
  ∧ instanceGroup p = Get c "INSTANCE_GROUP"
  ∧ projectID p = Get c "PROJECT_ID".
Proof.
  unfold newGCEProvider.
  destruct (newGCEProvider_keys L c) as [km|e] eqn:Hkeys; [|done]. simpl.
  pose proof (keys_projectID c km Hkeys) as Hproject.
  unfold newGCEProvider_options.
  rewrite ?writeBack_IsSet, ?writeBack_Get by done.
  destruct (IsSet c "BOOT_POLL_SLEEP"), (IsSet c "UPLOAD_RETRIES"),
    (IsSet c "UPLOAD_RETRY_SLEEP"), (IsSet c "AUTO_IMPLODE"),
    (IsSet c "HARD_TIMEOUT_MINUTES"), (IsSet c "DISK_SIZE");
    repeat next_step;
    repeat (match goal with
            | |- context [if ?b then _ else _] =>
                lazymatch b with
                | IsSet _ _ => fail
                | _ => destruct b; simpl; try done
                end
            end || next_step);
    intros [= <-]; simplify_eq; simpl; repeat split; try done;
    try (intros; congruence).
Qed.

(** A provider that construction returns has one of the three selector
    types, the one configured or [legacy], and a selector exactly when
    the type is not [legacy]; so [getImage] never meets a nil selector,
    before or after [Setup]. *)
Theorem newGCEProvider_selector_ready (W : Cloud) c p startAttributes :
  snd (newGCEProvider L c) = Ok p →
  imageSelectorType p
  = (if IsSet c "IMAGE_SELECTOR_TYPE" then Get c "IMAGE_SELECTOR_TYPE" else "legacy")
  ∧ imageSelectorType p ∈ ["legacy"; "env"; "api"]
  ∧ (is_Some (imageSelector p) ↔ imageSelectorType p ≠ "legacy")
  ∧ getImage L W p startAttributes ≠ Panics
  ∧ getImage L W (fst (Setup W p)) startAttributes ≠ Panics.
Proof.
  intros Hok.
  assert (imageSelectorType p
          = (if IsSet c "IMAGE_SELECTOR_TYPE" then Get c "IMAGE_SELECTOR_TYPE"
             else "legacy")
          ∧ (imageSelectorType p = "legacy" ∧ imageSelector p = None
             ∨ (imageSelectorType p = "env" ∨ imageSelectorType p = "api")
               ∧ is_Some (imageSelector p))) as [Htype Hcases].
  { revert Hok. unfold newGCEProvider.
    destruct (newGCEProvider_keys L c) as [km|e]; [|done]. simpl.
    unfold newGCEProvider_options.
    rewrite ?writeBack_IsSet, ?writeBack_Get by done.
    do 5 next_step.
    set (t := if IsSet c "IMAGE_SELECTOR_TYPE" then Get c "IMAGE_SELECTOR_TYPE"
              else defaultGCEImageSelectorType).
    destruct (String.eqb_spec t "legacy") as [Hl|Hl]; simpl.
    - rewrite Hl. simpl. intros [= <-]. simpl. split; [done|]. by left.
    - destruct (String.eqb_spec t "env") as [He|He]; simpl.
      + destruct (buildGCEImageSelector L t (newGCEProvider_writeBack c)) as [sel|e];
          simpl; [|done].
        intros [= <-]. simpl. split; [done|]. right. split; [by left|eauto].
      + destruct (String.eqb_spec t "api") as [Ha|Ha]; simpl; [|done].
        destruct (buildGCEImageSelector L t (newGCEProvider_writeBack c)) as [sel|e];
          simpl; [|done].
        intros [= <-]. simpl. split; [done|]. right. split; [by right|eauto]. }
  split; [done|].
  assert (∀ q, imageSelectorType q = imageSelectorType p →
               imageSelector q = imageSelector p →
               getImage L W q startAttributes ≠ Panics) as Hget.
  { intros q Hqt Hqs. unfold getImage. rewrite Hqt, Hqs.
    destruct Hcases as [[-> ->]|[[->| ->] [sel ->]]]; done. }
  split; [|split; [|split]].
  - destruct Hcases as [[-> _]|[[->| ->] _]]; set_solver.
  - destruct Hcases as [[-> ->]|[[->| ->] Hsel]]; split; try done.
    all: by intros [].
  - by apply Hget.
  - apply Hget; unfold Setup; repeat case_match; done.
Qed.


End MoreConstructionFacts.

(** ** Setup *)

(** [Setup] changes nothing of the provider but the zone, machine type,
    network and disk type of its instance configuration.  It returns nil
    exactly when the three lookups succeed, the machine type being looked
    up in the zone the cloud returned; the disk type is then the SSD type
    of that zone.  When it returns an error, the pointer of the lookup
    that failed is nil. *)
Theorem Setup_outcome (W : Cloud) (p : gceProvider) :
  set_ic (fst (Setup W p)) (ic p) = p
  ∧ DiskSize (ic (fst (Setup W p))) = DiskSize (ic p)
  ∧ SSHKeySigner (ic (fst (Setup W p))) = SSHKeySigner (ic p)
  ∧ SSHPubKey (ic (fst (Setup W p))) = SSHPubKey (ic p)
  ∧ AutoImplode (ic (fst (Setup W p))) = AutoImplode (ic p)
  ∧ HardTimeoutMinutes (ic (fst (Setup W p))) = HardTimeoutMinutes (ic p)
  ∧ (snd (Setup W p) = None ↔
     ∃ zone mt nw,
       Zones_Get W (projectID p) (Get (cfg p) "ZONE") = Ok zone
       ∧ MachineTypes_Get W (projectID p) (zoneName zone) (Get (cfg p) "MACHINE_TYPE")
         = Ok mt
       ∧ Networks_Get W (projectID p) (Get (cfg p) "NETWORK") = Ok nw
       ∧ icZone (ic (fst (Setup W p))) = Some zone
       ∧ icMachineType (ic (fst (Setup W p))) = Some mt
       ∧ icNetwork (ic (fst (Setup W p))) = Some nw
       ∧ DiskType (ic (fst (Setup W p)))
         = "zones/" +:+ zoneName zone +:+ "/diskTypes/pd-ssd")
  ∧ (is_Some (snd (Setup W p)) →
     icZone (ic (fst (Setup W p))) = None
     ∨ icMachineType (ic (fst (Setup W p))) = None
     ∨ icNetwork (ic (fst (Setup W p))) = None).
Proof.
  unfold Setup. destruct p as [cl pr c cf ty sel gr bp dl di ur us]. cbn.
  destruct (Zones_Get W pr (Get cf "ZONE")) as [zone|e] eqn:Hz; cbn.
  2:{ repeat split; try done; [|by left]. by intros (? & ? & ? & ? & _). }
  destruct (MachineTypes_Get W pr (zoneName zone) (Get cf "MACHINE_TYPE"))
    as [mt|e] eqn:Hm; cbn.
  2:{ repeat split; try done; [|auto].
      intros (z & m & n & [= <-] & Hm' & _). congruence. }
  destruct (Networks_Get W pr (Get cf "NETWORK")) as [nw|e] eqn:Hn; cbn.
  2:{ repeat split; try done; [|auto]. by intros (? & ? & ? & _ & _ & ? & _). }
  repeat split; try done; first [by exists zone, mt, nw | by intros []].
Qed.

Lemma newGCEProvider_required_keys_witness :
  is_Err (snd (newGCEProvider sampleLib (Unset sampleConfig "SSH_KEY_PASSPHRASE"))) = true
  ∧ fst (newGCEProvider sampleLib (Unset sampleConfig "SSH_KEY_PASSPHRASE"))
    = Unset sampleConfig "SSH_KEY_PASSPHRASE".
Proof.
  destruct (newGCEProvider_required_keys sampleLib
              (Unset sampleConfig "SSH_KEY_PASSPHRASE") "SSH_KEY_PASSPHRASE")
    as (Hfail & Hsame & _).
  - set_solver.
  - vm_compute. reflexivity.
  - by split.
Defined.

Lemma newGCEProvider_keeps_other_options_witness :
  fst (newGCEProvider sampleLib sampleConfig) !! "PROJECT_ID" = Some "travis-ci".
Proof.
  rewrite newGCEProvider_keeps_other_options by set_solver. reflexivity.
Defined.

Lemma newGCEProvider_resolved_options_witness :
  ∃ p, snd (newGCEProvider sampleLib (Set_ sampleConfig "UPLOAD_RETRIES" "3")) = Ok p
       ∧ uploadRetries p = 3 ∧ bootPollSleep p = 3 * second.
Proof.
  assert (∃ p, snd (newGCEProvider sampleLib (Set_ sampleConfig "UPLOAD_RETRIES" "3"))
               = Ok p) as [p Hp] by (vm_compute; eauto).
  exists p. split; [done|].
  destruct (newGCEProvider_resolved_options sampleLib _ p Hp) as (Hboot & Hretries & _).
  split.
  - vm_compute in Hretries. by injection Hretries.
  - exact Hboot.
Defined.

Lemma newGCEProvider_selector_ready_witness :
  ∃ p, snd (newGCEProvider sampleLib (Set_ sampleConfig "IMAGE_SELECTOR_TYPE" "env"))
       = Ok p
       ∧ imageSelectorType p = "env" ∧ is_Some (imageSelector p).
Proof.
  assert (∃ p, snd (newGCEProvider sampleLib
                      (Set_ sampleConfig "IMAGE_SELECTOR_TYPE" "env")) = Ok p)
    as [p Hp] by (vm_compute; eauto).
  exists p. split; [done|].
  destruct (newGCEProvider_selector_ready sampleLib sampleCloud _ p (attributesFor "go") Hp)
    as (Htype & _ & Hsel & _).
  split; [exact Htype|]. apply Hsel. rewrite Htype. discriminate.
Defined.


(** ** The message of an operation error *)

Lemma errStrs_map (items : list OperationErrorErrors) (acc : list string) :
  foldl (λ errStrs err,
           errStrs ++ ["code=" +:+ Code err +:+ " location=" +:+ Location err
                       +:+ " message=" +:+ Message err]) acc items
  = acc ++ map renderError items.
Proof.
  revert acc. induction items as [|err items IH]; intros acc; simpl.
  - by rewrite app_nil_r.
  - rewrite IH. by rewrite <- app_assoc.
Qed.

(** The message of an operation error lists its entries in order, each
    as [code=C location=L message=M], separated by a comma and a blank;
    it is empty when the payload has no entry. *)
Theorem gceOpError_Error_format :
  gceOpError_Error {| Errors := [] |} = ""
  ∧ (∀ err, gceOpError_Error {| Errors := [err] |} = renderError err)
  ∧ (∀ err next rest,
       gceOpError_Error {| Errors := err :: next :: rest |}
       = renderError err +:+ ", " +:+ gceOpError_Error {| Errors := next :: rest |}).
Proof.
  unfold gceOpError_Error. cbn [Errors].
  split; [done|]. split; [done|]. intros err next rest.
  rewrite !errStrs_map. reflexivity.
Qed.

(** ** The image list and its order *)

Section ImageOrder.

Context (W W' : Cloud).

Lemma string_le_antisym s t :
  string_le s t = true → string_le t s = true → s = t.
Proof.
  revert t. induction s as [|a s IH]; intros [|b t]; simpl; try done.
  destruct (N.ltb_spec (N_of_ascii a) (N_of_ascii b)) as [Hab|Hab];
    destruct (N.ltb_spec (N_of_ascii b) (N_of_ascii a)) as [Hba|Hba]; try lia.
  - destruct (N.eqb_spec (N_of_ascii b) (N_of_ascii a)); [lia|done].
  - destruct (N.eqb_spec (N_of_ascii a) (N_of_ascii b)); [lia|done].
  - destruct (N.eqb_spec (N_of_ascii a) (N_of_ascii b)) as [Hn|]; [|done].
    destruct (N.eqb_spec (N_of_ascii b) (N_of_ascii a)); [|done].
    intros Hst Hts. f_equal; [|by apply IH].
    rewrite <- (ascii_N_embedding a), <- (ascii_N_embedding b). by rewrite Hn.
Qed.

Lemma imagesByName_skip (post : list Image) (n : string) :
  Forall (λ other, Name other ≠ n) post →
  ∀ m : gmap string Image,
    foldl (λ m image, <[Name image := image]> m) m post !! n = m !! n.
Proof.
  induction 1 as [|x post Hx _ IH]; intros m; cbn; [done|].
  by rewrite IH, lookup_insert_ne.
Qed.

Lemma imagesByName_last (pre post : list Image) (image : Image) :
  Forall (λ other, Name other ≠ Name image) post →
  foldl (λ m image, <[Name image := image]> m) (∅ : gmap string Image)
        (pre ++ image :: post) !! Name image
  = Some image.
Proof.
  intros Hpost. rewrite foldl_app. cbn [foldl].
  by rewrite (imagesByName_skip post _ Hpost), lookup_insert_eq.
Qed.

Lemma imageByFilter_decided (V : Cloud) p filter pre image post :
  Images_List V (projectID p) filter = Ok (pre ++ image :: post) →
  (∀ other, other ∈ pre ++ image :: post →
            string_le (Name other) (Name image) = true) →
  Forall (λ other, Name other ≠ Name image) post →
  imageByFilter V p filter = Ok image.
Proof.
  intros HList Hmax Hpost. unfold imageByFilter. rewrite HList. cbn [mbind result_bind].
  replace (length (pre ++ image :: post) =? 0)%nat with false
    by (rewrite length_app; cbn; symmetry; apply Nat.eqb_neq; lia).
  rewrite foldl_images. cbn [app].
  destruct (sort_Strings_last (map Name (pre ++ image :: post))) as [Hg Hgmax].
  { by destruct pre. }
  cbv zeta in Hg, Hgmax.
  set (g := sort_Strings (map Name (pre ++ image :: post))
            !!! (length (sort_Strings (map Name (pre ++ image :: post))) - 1)%nat) in *.
  assert (g = Name image) as ->.
  { apply string_le_antisym.
    - apply list_elem_of_fmap in Hg as (other & -> & Hother). by apply Hmax.
    - apply Hgmax. apply list_elem_of_fmap. exists image. set_solver. }
  f_equal. apply lookup_total_correct. by apply imagesByName_last.
Qed.

(** When several images of the list carry the greatest name,
    [imageByFilter] returns the one listed last: the image whose name no
    other exceeds and no later image shares. *)
Theorem imageByFilter_last_of_greatest p filter pre image post :
  Images_List W (projectID p) filter = Ok (pre ++ image :: post) →
  (∀ other, other ∈ pre ++ image :: post →
            string_le (Name other) (Name image) = true) →
  Forall (λ other, Name other ≠ Name image) post →
  imageByFilter W p filter = Ok image.
Proof. apply imageByFilter_decided. Qed.

Lemma later_names_differ (pre post : list Image) (image : Image) :
  NoDup (map Name (pre ++ image :: post)) →
  Forall (λ other, Name other ≠ Name image) post.
Proof.
  rewrite map_app. intros [_ [_ Hnd]]%NoDup_app. cbn in Hnd.
  apply NoDup_cons in Hnd as [Hnotin _].
  apply Forall_forall. intros other Hother Heq. apply Hnotin.
  apply list_elem_of_fmap. by exists other.
Qed.

(** When the names of the listed images are distinct, the order in which
    the cloud lists them does not matter: two lists with the same images
    give the same result. *)
Theorem imageByFilter_order_irrelevant p filter images images' :
  Images_List W (projectID p) filter = Ok images →
  Images_List W' (projectID p) filter = Ok images' →
  images ≡ₚ images' →
  NoDup (map Name images) →
  imageByFilter W p filter = imageByFilter W' p filter.
Proof.
  intros HList HList' Hperm Hnd.
  destruct images as [|i0 images0] eqn:E.
  { apply Permutation_nil_l in Hperm as <-.
    by rewrite (imageByFilter_empty W _ _ HList), (imageByFilter_empty W' _ _ HList'). }
  rewrite <- E in *.
  destruct (imageByFilter_nonempty W p filter images HList) as (image & -> & Hin & Hmax).
  { by rewrite E. }
  assert (image ∈ images') as Hin' by by rewrite <- Hperm.
  apply list_elem_of_split in Hin' as (pre' & post' & ->).
  symmetry. apply (imageByFilter_decided W' p filter pre' image post' HList').
  - intros other Hother. apply Hmax. by rewrite Hperm.
  - apply later_names_differ with pre'. by rewrite <- Hperm.
Qed.

End ImageOrder.

Lemma imageByFilter_last_of_greatest_witness :
  imageByFilter sampleCloud sampleProvider "name eq ^travis-ci-go.+" = Ok (goImage "02").
Proof.
  apply (imageByFilter_last_of_greatest sampleCloud sampleProvider _
           [goImage "01"] (goImage "02") [goImage "00"]).
  - reflexivity.
  - intros other Hother.
    repeat (apply elem_of_cons in Hother as [->|Hother]); try reflexivity.
    by apply elem_of_nil in Hother.
  - repeat constructor. discriminate.
Defined.

Lemma imageByFilter_order_irrelevant_witness :
  imageByFilter sampleCloud sampleProvider "name eq ^travis-ci-go.+"
  = imageByFilter
      {| Zones_Get := Zones_Get sampleCloud;
         MachineTypes_Get := MachineTypes_Get sampleCloud;
         Networks_Get := Networks_Get sampleCloud;
         Images_List := λ _ _, Ok [goImage "00"; goImage "01"; goImage "02"] |}
      sampleProvider "name eq ^travis-ci-go.+".
Proof.
  apply (imageByFilter_order_irrelevant _ _ sampleProvider _
           [goImage "01"; goImage "02"; goImage "00"]
           [goImage "00"; goImage "01"; goImage "02"]).
  - reflexivity.
  - reflexivity.
  - apply Permutation_cons_app with (l1 := [goImage "00"]) (l2 := [goImage "02"]).
    apply Permutation_cons_app with (l1 := [goImage "00"]) (l2 := []). reflexivity.
  - vm_compute. repeat constructor; set_solver.
Defined.

(** ** Selectors and credentials *)

Section SelectorFacts.

Context (L : GoLib) (W : Cloud).

(** With an env or api selector, a selector error is returned as it is;
    otherwise the image is looked up under the filter [name eq ^NAME],
    where NAME is [IMAGE_DEFAULT] when the selector answers [default],
    and of the images listed the one with the greatest name is returned,
    or the error of an empty list. *)
Theorem imageSelect_resolves p sel startAttributes :
  (∀ err, Select sel (selectorParams startAttributes) = Err err →
          imageSelect W p sel startAttributes = (None, Some err))
  ∧ (∀ name images,
       Select sel (selectorParams startAttributes) = Ok name →
       Images_List W (projectID p)
                   ("name eq ^" +:+ (if String.eqb name "default" then defaultImage p
                                     else name))
       = Ok images →
       (images = [] →
        ∃ msg, imageSelect W p sel startAttributes = (None, Some (Errorf msg)))
       ∧ (images ≠ [] →
          ∃ image, imageSelect W p sel startAttributes = (Some image, None)
                   ∧ image ∈ images
                   ∧ ∀ other, other ∈ images →
                              string_le (Name other) (Name image) = true)).
Proof.
  unfold imageSelect. fold (selectorParams startAttributes). split.
  - by intros err ->.
  - intros name images -> HList. split.
    + intros ->. rewrite (imageByFilter_empty W _ _ HList). eauto.
    + intros Hne.
      destruct (imageByFilter_nonempty W p _ images HList Hne) as (image & -> & ? & ?).
      by exists image.
Qed.

(** Credentials given inline, as text that starts with a brace once
    trimmed, are never read from the file system: the service is built the
    same whatever [ioutil.ReadFile] would return.  Credentials given as a
    path that cannot be read make the construction of the service fail
    with the read error. *)
Theorem buildGoogleComputeService_inline_or_path (c : ProviderConfig) :
  (strings_HasPrefix (strings_TrimSpace L (Get c "ACCOUNT_JSON")) "{" = true →
   ∀ readFile, buildGoogleComputeService (with_ReadFile L readFile) c
               = buildGoogleComputeService L c)
  ∧ (∀ err, IsSet c "ACCOUNT_JSON" = true →
            strings_HasPrefix (strings_TrimSpace L (Get c "ACCOUNT_JSON")) "{" = false →
            ioutil_ReadFile L (Get c "ACCOUNT_JSON") = Err err →
            buildGoogleComputeService L c = Err err).
Proof.
  unfold buildGoogleComputeService, loadGoogleAccountJSON. split.
  - intros Hinline readFile. cbn [strings_TrimSpace with_ReadFile json_Unmarshal
                                  ioutil_ReadFile gceCustomHTTPTransport compute_New].
    by rewrite Hinline.
  - intros err -> -> ->. reflexivity.
Qed.

End SelectorFacts.

Lemma imageSelect_resolves_witness :
  imageSelect sampleCloud (set_instanceGroup sampleProvider "")
              {| Select := λ _, Err (LibError "image" "no such alias") |}
              (attributesFor "go")
  = (None, Some (LibError "image" "no such alias")).
Proof.
  apply (proj1 (imageSelect_resolves sampleCloud _ _ _)). reflexivity.
Defined.

Lemma buildGoogleComputeService_inline_or_path_witness :
  buildGoogleComputeService
    (with_ReadFile sampleLib (λ _, Err (LibError "os" "permission denied"))) sampleConfig
  = buildGoogleComputeService sampleLib sampleConfig.
Proof.
  apply (proj1 (buildGoogleComputeService_inline_or_path sampleLib sampleConfig)).
  reflexivity.
Defined.
